(** * A shallow embedding of [generate_all_dummy_data.py]

    The management command [Command] of
    [common/management/commands/generate_all_dummy_data.py] is embedded
    function by function.  The command is a thin script over three
    collaborators that are not part of the repository: Django's model
    registry and ORM, the [faker] package and Python's [random] module.
    They are represented by an environment record [Env] (oracles indexed
    by a logical clock) and by an explicit store inside the program
    state.  Python exceptions are results of the monad [M].

    [handle] calls [self.sort_models_by_dependencies], a method the
    source file does not define; module [Orderer] models it from the
    specification. *)

From Stdlib Require Import ZArith Lia Permutation Ascii String ListDec.
From stdpp Require Import gmap strings list pretty.

Open Scope string_scope.
Open Scope list_scope.
Open Scope Z_scope.

(** ** Python strings *)

Module PyStr.

(** [c.lower()] on an ASCII character. *)
Definition lower_ascii (c : ascii) : ascii :=
  let n := nat_of_ascii c in
  if ((65 <=? n) && (n <=? 90))%nat then ascii_of_nat (n + 32) else c.

(** [s.lower()] (field names are ASCII identifiers). *)
Fixpoint lower (s : string) : string :=
  match s with
  | EmptyString => EmptyString
  | String c r => String (lower_ascii c) (lower r)
  end.

(** [s.endswith(suffix)]. *)
Definition endswith (s suffix : string) : bool :=
  let n := String.length s in
  let k := String.length suffix in
  ((k <=? n)%nat && String.eqb (substring (n - k) k s) suffix)%bool.

(** [s[:n]]: the first [n] characters; a negative [n] counts from the
    end of the string. *)
Definition slice_to (n : Z) (s : string) : string :=
  let len := Z.of_nat (String.length s) in
  let stop := if n <? 0 then Z.max 0 (len + n) else Z.min n len in
  substring 0 (Z.to_nat stop) s.

(** [x in xs] for a list of strings. *)
Definition mem (x : string) (xs : list string) : bool :=
  existsb (String.eqb x) xs.

(** [sep.join(xs)]. *)
Definition join (sep : string) (xs : list string) : string :=
  String.concat sep xs.

(** Does the character occur in the string? *)
Fixpoint contains_char (c : ascii) (s : string) : bool :=
  match s with
  | EmptyString => false
  | String d r => Ascii.eqb c d || contains_char c r
  end.

(** The part of [s] before and after the first occurrence of [c]. *)
Fixpoint split_at (c : ascii) (s : string) : option (string * string) :=
  match s with
  | EmptyString => None
  | String d r =>
      if Ascii.eqb c d then Some (EmptyString, r)
      else match split_at c r with
           | Some (a, b) => Some (String d a, b)
           | None => None
           end
  end.

End PyStr.

Arguments PyStr.mem : simpl never.
Arguments PyStr.lower : simpl never.
Arguments PyStr.endswith : simpl never.
Arguments PyStr.slice_to : simpl never.

(** An email shape: [local@domain] with a non-empty local part, exactly
    one [@], and a domain [left.right] with non-empty sides. *)
Definition email_shape (s : string) : bool :=
  match PyStr.split_at "@"%char s with
  | Some (loc, dom) =>
      negb (String.eqb loc "")
      && negb (PyStr.contains_char "@"%char dom)
      && match PyStr.split_at "."%char dom with
         | Some (l, r) => negb (String.eqb l "") && negb (String.eqb r "")
         | None => false
         end
  | None => false
  end.

(** ** Values, exceptions *)

(** [decimal.Decimal] as its [as_tuple()]: sign, coefficient, exponent. *)
Record Decimal := mkDecimal {
  dec_negative : bool;
  dec_coefficient : Z;
  dec_exponent : Z
}.

(** Number of digits after the decimal point. *)
Definition fractional_digits (d : Decimal) : Z := Z.max 0 (- dec_exponent d).

(** The integer part of the absolute value. *)
Definition integer_part (d : Decimal) : Z :=
  if dec_exponent d <? 0
  then dec_coefficient d / 10 ^ (- dec_exponent d)
  else dec_coefficient d * 10 ^ dec_exponent d.

(** The integer part is written with at most [n] digits. *)
Definition at_most_integer_digits (n : Z) (d : Decimal) : Prop :=
  0 <= integer_part d < 10 ^ n.

(** The attribute values the command assigns.  A model instance used as a
    value is a reference: the label of its model and its object
    identity. *)
Inductive Value :=
| VNone
| VStr (s : string)
| VInt (z : Z)
| VBool (b : bool)
| VDecimal (d : Decimal)
| VDateTime (seconds : Z)
| VDate (days : Z)
| VObj (model : string) (id : nat).

Inductive Exn :=
| TypeError (msg : string)
| ValueError (msg : string)
| AttributeError (msg : string)
| DatabaseError (msg : string)
| IntegrityError (msg : string).

(** [str(e)]. *)
Definition str_exn (e : Exn) : string :=
  match e with
  | TypeError m | ValueError m | AttributeError m
  | DatabaseError m | IntegrityError m => m
  end.

(** ** Model descriptors ([model._meta]) *)

(** A selection of the field classes of [django.db.models]. *)
Inductive FieldClass :=
| CharField | EmailField | URLField | SlugField
| TextField
| DateField | DateTimeField | TimeField | DurationField
| BooleanField
| IntegerField | SmallIntegerField | BigIntegerField
| PositiveIntegerField | PositiveSmallIntegerField | AutoField
| DecimalField | FloatField
| ForeignKey | OneToOneField
| UUIDField | BinaryField | FileField | ImageField
| GenericIPAddressField | JSONField.

#[global] Instance FieldClass_eq_dec : EqDecision FieldClass.
Proof. solve_decision. Defined.

(** The classes a field class inherits from, itself included, as Django
    declares them ([EmailField(CharField)], [URLField(CharField)],
    [DateTimeField(DateField)], [OneToOneField(ForeignKey)], ...). *)
Definition mro (c : FieldClass) : list FieldClass :=
  match c with
  | EmailField => [EmailField; CharField]
  | URLField => [URLField; CharField]
  | SlugField => [SlugField; CharField]
  | DateTimeField => [DateTimeField; DateField]
  | SmallIntegerField => [SmallIntegerField; IntegerField]
  | BigIntegerField => [BigIntegerField; IntegerField]
  | PositiveIntegerField => [PositiveIntegerField; IntegerField]
  | PositiveSmallIntegerField =>
      [PositiveSmallIntegerField; SmallIntegerField; IntegerField]
  | AutoField => [AutoField; IntegerField]
  | OneToOneField => [OneToOneField; ForeignKey]
  | ImageField => [ImageField; FileField]
  | c => [c]
  end.

(** [Field.empty_strings_allowed]: true unless the class sets it to
    false.  (The empty default of a [BinaryField] is [b""], rendered
    here as the empty string.) *)
Definition empty_strings_allowed (c : FieldClass) : bool :=
  match c with
  | CharField | EmailField | URLField | SlugField | TextField
  | FileField | ImageField | BinaryField => true
  | _ => false
  end.

(** [field.remote_field.model._meta]: the target of a relation. *)
Record ModelRef := mkModelRef {
  ref_app_label : string;
  ref_model_name : string
}.

Record Field := mkField {
  f_class : FieldClass;
  name : string;
  max_length : option Z;
  max_digits : option Z;
  decimal_places : option Z;
  null : bool;
  default : option Value;
  remote_field : option ModelRef
}.

Definition isinstance (f : Field) (c : FieldClass) : bool :=
  bool_decide (c ∈ mro (f_class f)).

(** A [ManyToManyField] of [model._meta.many_to_many]. *)
Record M2MField := mkM2M {
  m2m_name : string;
  m2m_remote : ModelRef
}.

Record Model := mkModel {
  app_label : string;
  model_name : string;
  label : string;
  abstract : bool;
  fields : list Field;
  many_to_many : list M2MField
}.

(** [f"{model._meta.app_label}.{model._meta.model_name}"]. *)
Definition qualified_name (m : Model) : string :=
  app_label m +:+ "." +:+ model_name m.

Definition ref_name (r : ModelRef) : string :=
  ref_app_label r +:+ "." +:+ ref_model_name r.

(** ** Instances and the store *)

Record Instance := mkInstance {
  inst_model : string;
  inst_id : nat;
  inst_attrs : list (string * Value)
}.

(** [getattr(instance, name)]. *)
Fixpoint getattr (attrs : list (string * Value)) (n : string) : option Value :=
  match attrs with
  | [] => None
  | (k, v) :: r => if String.eqb k n then Some v else getattr r n
  end.

(** [setattr(instance, name, value)]. *)
Fixpoint setattr (attrs : list (string * Value)) (n : string) (v : Value)
  : list (string * Value) :=
  match attrs with
  | [] => [(n, v)]
  | (k, w) :: r => if String.eqb k n then (k, v) :: r else (k, w) :: setattr r n v
  end.

Record User := mkUser {
  username : string;
  email : string;
  is_superuser : bool
}.

(** The storage operations the command issues. *)
Inductive DbOp :=
| OpGetOrCreateGroup (group_name : string)
| OpSuperuserExists
| OpCreateSuperuser
| OpSave (o : Instance)
| OpRandomFirst (model : string)
| OpSetRelation (o : Instance) (field : string) (related : list Instance).

(** What can be observed of a run, in the order it happens. *)
Inductive Event :=
| EvStdout (msg : string)
| EvLogError (msg : string)
| EvSaved (o : Instance)
| EvSaveFailed (o : Instance)
| EvQuery (model : string)
| EvAttached (field : string) (o : Instance) (related : list Instance).

(** ** The collaborators *)

(** What the command takes from outside the repository.  Every oracle
    that stands for a random or time-dependent answer is indexed by the
    logical clock of the state, which advances at each use.
    - [get_models]: [apps.get_models()];
    - [rand]: the raw draws behind [random] and [faker.random_int];
    - [now]: [timezone.now()], in seconds;
    - [db_fault]: whether the storage operation issued at a given time
      raises, and with which exception;
    - [fk_*]: the generators of the [faker] package. *)
Record Env := mkEnv {
  get_models : list Model;
  rand : nat -> nat;
  now : nat -> Z;
  db_fault : nat -> DbOp -> option Exn;
  fk_email : nat -> string;
  fk_phone_number : nat -> string;
  fk_name : nat -> string;
  fk_text : Z -> nat -> string;
  fk_date_time_this_decade : nat -> Z;
  fk_date_this_decade : nat -> Z;
  fk_boolean : nat -> bool;
  fk_pydecimal : Z -> Z -> bool -> nat -> Decimal;
  fk_url : nat -> string
}.

(** The documented behaviour of the [faker] generators the claims rely
    on: [email()] returns an address, and [pydecimal(left_digits,
    right_digits, positive=True)] a non-negative decimal written with
    [left_digits] integer digits at most and [right_digits] fractional
    digits. *)
Record FakerContract (env : Env) : Prop := {
  fk_email_shape : forall t, email_shape (fk_email env t) = true;
  fk_pydecimal_digits : forall l r t,
    0 <= l -> 0 <= r -> 0 < l + r ->
    let d := fk_pydecimal env l r true t in
    dec_negative d = false /\ dec_exponent d = - r /\
    0 <= dec_coefficient d < 10 ^ (l + r)
}.

(** ** Program state *)

(** The attributes of [self] ([created_objects], [processed_models],
    [skipped_models]), the persisted store ([db_groups], [db_users],
    [db_rows], [db_links]), the allocator of object identities, the
    logical clock and the trace of observable events (oldest first). *)
Record State := mkState {
  created_objects : gmap string (list Instance);
  processed_models : gset string;
  skipped_models : gset string;
  db_groups : list string;
  db_users : list User;
  db_rows : list Instance;
  db_links : list (Instance * string * list Instance);
  next_id : nat;
  clock : nat;
  trace : list Event
}.

Definition set_created_objects (v : gmap string (list Instance)) (s : State) :=
  mkState v (processed_models s) (skipped_models s) (db_groups s)
    (db_users s) (db_rows s) (db_links s) (next_id s) (clock s) (trace s).
Definition set_processed_models (v : gset string) (s : State) :=
  mkState (created_objects s) v (skipped_models s) (db_groups s)
    (db_users s) (db_rows s) (db_links s) (next_id s) (clock s) (trace s).
Definition set_skipped_models (v : gset string) (s : State) :=
  mkState (created_objects s) (processed_models s) v (db_groups s)
    (db_users s) (db_rows s) (db_links s) (next_id s) (clock s) (trace s).
Definition set_db_groups (v : list string) (s : State) :=
  mkState (created_objects s) (processed_models s) (skipped_models s) v
    (db_users s) (db_rows s) (db_links s) (next_id s) (clock s) (trace s).
Definition set_db_users (v : list User) (s : State) :=
  mkState (created_objects s) (processed_models s) (skipped_models s)
    (db_groups s) v (db_rows s) (db_links s) (next_id s) (clock s) (trace s).
Definition set_db_rows (v : list Instance) (s : State) :=
  mkState (created_objects s) (processed_models s) (skipped_models s)
    (db_groups s) (db_users s) v (db_links s) (next_id s) (clock s) (trace s).
Definition set_db_links (v : list (Instance * string * list Instance))
  (s : State) :=
  mkState (created_objects s) (processed_models s) (skipped_models s)
    (db_groups s) (db_users s) (db_rows s) v (next_id s) (clock s) (trace s).
Definition set_next_id (v : nat) (s : State) :=
  mkState (created_objects s) (processed_models s) (skipped_models s)
    (db_groups s) (db_users s) (db_rows s) (db_links s) v (clock s) (trace s).
Definition set_clock (v : nat) (s : State) :=
  mkState (created_objects s) (processed_models s) (skipped_models s)
    (db_groups s) (db_users s) (db_rows s) (db_links s) (next_id s) v (trace s).
Definition set_trace (v : list Event) (s : State) :=
  mkState (created_objects s) (processed_models s) (skipped_models s)
    (db_groups s) (db_users s) (db_rows s) (db_links s) (next_id s) (clock s) v.

(** The state of a fresh [Command()] over a given store. *)
Definition initial_state (groups : list string) (users : list User)
  (rows : list Instance) : State :=
  mkState ∅ ∅ ∅ groups users rows []
    (S (foldr (fun o n => Nat.max (inst_id o) n) 0%nat rows)) 0 [].

(** ** The monad of the command: state and Python exceptions *)

Inductive Outcome (A : Type) :=
| Ok (a : A)
| Raise (e : Exn).
Arguments Ok {A} a.
Arguments Raise {A} e.

Definition M (A : Type) : Type := State -> Outcome A * State.

Definition ret {A} (a : A) : M A := fun s => (Ok a, s).

Definition bind {A B} (m : M A) (k : A -> M B) : M B :=
  fun s => match m s with
           | (Ok a, s') => k a s'
           | (Raise e, s') => (Raise e, s')
           end.

Definition raise {A} (e : Exn) : M A := fun s => (Raise e, s).

(** [try: m except Exception as e: h e]. *)
Definition try_except {A} (m : M A) (h : Exn -> M A) : M A :=
  fun s => match m s with
           | (Ok a, s') => (Ok a, s')
           | (Raise e, s') => h e s'
           end.

Definition gets {A} (f : State -> A) : M A := fun s => (Ok (f s), s).
Definition modify (f : State -> State) : M unit := fun s => (Ok tt, f s).

Declare Scope cmd_scope.
Delimit Scope cmd_scope with cmd.
Notation "x <~ m ;; k" := (bind m (fun x => k))
  (at level 100, m at next level, right associativity) : cmd_scope.
Notation "m ;;; k" := (bind m (fun _ => k))
  (at level 100, right associativity) : cmd_scope.
Open Scope cmd_scope.

(** Advance the clock and return the time of the draw. *)
Definition tick : M nat :=
  fun s => (Ok (clock s), set_clock (S (clock s)) s).

Definition emit (e : Event) : M unit :=
  modify (fun s => set_trace (trace s ++ [e]) s).

(** [self.stdout.write(msg)], [logger.error(msg)]. *)
Definition stdout_write (msg : string) : M unit := emit (EvStdout msg).
Definition logger_error (msg : string) : M unit := emit (EvLogError msg).

(** [for x in xs: body x]. *)
Fixpoint for_each {A} (xs : list A) (body : A -> M unit) : M unit :=
  match xs with
  | [] => ret tt
  | x :: rest => body x ;;; for_each rest body
  end.

(** ** Dependency ordering *)

Module Orderer.

(** Modelled from the spec: [sort_models_by_dependencies] is missing
    from the source (see below); a required single-valued relationship
    is a [ForeignKey] (or a subclass) that does not accept null. *)
Definition is_required_relation (f : Field) : bool :=
  isinstance f ForeignKey && negb (null f).

(** The qualified names of the models [m] requires. *)
Definition required_targets (m : Model) : list string :=
  omap (fun f => if is_required_relation f
                 then ref_name <$> remote_field f else None)
       (fields m).

Definition names (ms : list Model) : list string := map qualified_name ms.

(** Modelled from the spec: the edges into [m] of the dependency graph
    over the set [ms] are its required targets that are in the set; a
    reference of a model to itself is no ordering constraint. *)
Definition dependencies (ms : list Model) (m : Model) : list string :=
  filter (fun r => PyStr.mem r (names ms)
                   && negb (String.eqb r (qualified_name m)))
         (required_targets m).

(** Every dependency of [m] has been placed. *)
Definition ready (ms placed : list Model) (m : Model) : bool :=
  forallb (fun r => PyStr.mem r (names placed)) (dependencies ms m).

(** The first pending model that satisfies [ok], and the others. *)
Fixpoint pick (ok : Model -> bool) (pending : list Model)
  : option (Model * list Model) :=
  match pending with
  | [] => None
  | m :: rest =>
      if ok m then Some (m, rest)
      else match pick ok rest with
           | Some (x, rest') => Some (x, m :: rest')
           | None => None
           end
  end.

(** Modelled from the spec: the topological traversal places a model
    whose dependencies are all placed, until none is pending.  When no
    pending model is ready (a cycle) the remaining models follow in
    their given order. *)
Fixpoint traverse (fuel : nat) (ms pending placed : list Model)
  : list Model :=
  match fuel with
  | O => placed ++ pending
  | S fuel' =>
      match pick (ready ms placed) pending with
      | Some (m, pending') => traverse fuel' ms pending' (placed ++ [m])
      | None => placed ++ pending
      end
  end.

(** Modelled from the spec: [handle] calls
    [self.sort_models_by_dependencies], which the source file does not
    define.  The spec (4.1): build a directed graph with an edge R -> M
    for each required single-valued relationship of M to a model R of
    the set, and perform a topological traversal. *)
Definition sort_models_by_dependencies (ms : list Model) : list Model :=
  traverse (length ms) ms ms [].

(** [a] has a required relationship to [b], and both are in the set. *)
Definition requires (ms : list Model) (a b : string) : Prop :=
  exists m, m ∈ ms /\ qualified_name m = a /\
            b ∈ required_targets m /\ b ∈ names ms.

(** No model of the set reaches itself along required relationships. *)
Definition acyclic (ms : list Model) : Prop :=
  forall x, ~ tc (requires ms) x x.

End Orderer.

(** ** The command *)

Section Command.

Variable env : Env.

(** *** [random], [faker], [timezone] *)

(** [random.randint(a, b)]. *)
Definition random_randint (a b : Z) : M Z :=
  if b <? a then raise (ValueError "empty range for randrange()")
  else t <~ tick ;; ret (a + Z.of_nat (rand env t) mod (b - a + 1)).

(** [random.choice(seq)]. *)
Definition random_choice {A} (xs : list A) : M A :=
  t <~ tick ;;
  match xs !! (rand env t mod length xs)%nat with
  | Some x => ret x
  | None => raise (ValueError "Cannot choose from an empty sequence")
  end.

Fixpoint draw_sample {A} (k : nat) (population : list A) : M (list A) :=
  match k with
  | O => ret []
  | S k' =>
      t <~ tick ;;
      let i := (rand env t mod length population)%nat in
      match population !! i with
      | Some x =>
          rest <~ draw_sample k' (delete i population) ;; ret (x :: rest)
      | None => ret []
      end
  end.

(** [random.sample(population, k)]: [k] distinct positions. *)
Definition random_sample {A} (population : list A) (k : Z) : M (list A) :=
  if (k <? 0) || (Z.of_nat (length population) <? k)
  then raise (ValueError "Sample larger than population or is negative")
  else draw_sample (Z.to_nat k) population.

Definition faker_email : M Value :=
  t <~ tick ;; ret (VStr (fk_email env t)).
Definition faker_phone_number : M string :=
  t <~ tick ;; ret (fk_phone_number env t).
Definition faker_name : M string :=
  t <~ tick ;; ret (fk_name env t).

(** [faker.text(max_nb_chars)] refuses fewer than 5 characters. *)
Definition faker_text (max_nb_chars : Z) : M string :=
  if max_nb_chars <? 5
  then raise (ValueError "text() can only generate text of at least 5 characters")
  else t <~ tick ;; ret (fk_text env max_nb_chars t).

Definition faker_date_time_this_decade : M Value :=
  t <~ tick ;; ret (VDateTime (fk_date_time_this_decade env t)).
Definition faker_date_this_decade : M Value :=
  t <~ tick ;; ret (VDate (fk_date_this_decade env t)).
Definition faker_boolean : M Value :=
  t <~ tick ;; ret (VBool (fk_boolean env t)).
Definition faker_random_int (lo hi : Z) : M Value :=
  z <~ random_randint lo hi ;; ret (VInt z).
Definition faker_url : M Value :=
  t <~ tick ;; ret (VStr (fk_url env t)).

(** [faker.pydecimal(left_digits, right_digits, positive)] refuses
    negative digit counts and a total of zero digits. *)
Definition faker_pydecimal (left_digits right_digits : Z) (positive : bool)
  : M Value :=
  if left_digits <? 0
  then raise (ValueError "A decimal number cannot have less than 0 digits in its integer part")
  else if right_digits <? 0
  then raise (ValueError "A decimal number cannot have less than 0 digits in its fractional part")
  else if (left_digits =? 0) && (right_digits =? 0)
  then raise (ValueError "A decimal number cannot have 0 digits in total")
  else t <~ tick ;;
       ret (VDecimal (fk_pydecimal env left_digits right_digits positive t)).

(** [timezone.now()] and [timezone.now().date()]. *)
Definition timezone_now : M Z := t <~ tick ;; ret (now env t).
Definition date_of (seconds : Z) : Z := seconds / 86400.

(** *** The ORM *)

(** Issue a storage operation: it raises when the backend says so. *)
Definition db_issue (op : DbOp) : M unit :=
  t <~ tick ;;
  match db_fault env t op with
  | Some e => raise e
  | None => ret tt
  end.

(** [Group.objects.get_or_create(name=group_name)]. *)
Definition group_get_or_create (group_name : string) : M unit :=
  db_issue (OpGetOrCreateGroup group_name) ;;;
  groups <~ gets db_groups ;;
  if PyStr.mem group_name groups then ret tt
  else modify (set_db_groups (groups ++ [group_name])).

(** [User.objects.filter(is_superuser=True).exists()]. *)
Definition superuser_exists : M bool :=
  db_issue OpSuperuserExists ;;;
  users <~ gets db_users ;;
  ret (existsb is_superuser users).

(** [User.objects.create_superuser(username, email, password)]; user
    names are unique. *)
Definition create_superuser (uname mail : string) : M unit :=
  db_issue OpCreateSuperuser ;;;
  users <~ gets db_users ;;
  if PyStr.mem uname (map username users)
  then raise (IntegrityError "UNIQUE constraint failed: auth_user.username")
  else modify (set_db_users (users ++ [mkUser uname mail true])).

(** [obj.save()]. *)
Definition save (obj : Instance) : M unit :=
  try_except (db_issue (OpSave obj))
    (fun e => emit (EvSaveFailed obj) ;;; raise e) ;;;
  modify (fun s => set_db_rows (db_rows s ++ [obj]) s) ;;;
  emit (EvSaved obj).

Definition rows_of (model : string) (rows : list Instance) : list Instance :=
  filter (fun o => inst_model o = model) rows.

(** The stored instances of a model, as references.  The accounts and
    the groups that bootstrap writes are the instances of [auth.user]
    and [auth.group], numbered by their position; the instances of the
    other models are the persisted rows. *)
Definition stored_refs (model : string) (s : State) : list (string * nat) :=
  (if String.eqb model "auth.user"
   then imap (fun i _ => ("auth.user", S i)) (db_users s)
   else if String.eqb model "auth.group"
   then imap (fun i _ => ("auth.group", S i)) (db_groups s)
   else [])
  ++ map (fun o => (inst_model o, inst_id o)) (rows_of model (db_rows s)).

(** [related_model.objects.order_by('?').first()]. *)
Definition random_first (model : string) : M Value :=
  emit (EvQuery model) ;;;
  db_issue (OpRandomFirst model) ;;;
  stored <~ gets (stored_refs model) ;;
  match stored with
  | [] => ret VNone
  | _ :: _ => r <~ random_choice stored ;; ret (VObj r.1 r.2)
  end.

(** [getattr(obj, field_name).set(related)]. *)
Definition set_relation (obj : Instance) (field_name : string)
  (related : list Instance) : M unit :=
  db_issue (OpSetRelation obj field_name related) ;;;
  modify (fun s =>
    set_db_links
      (filter (fun l => negb ((inst_id l.1.1 =? inst_id obj)%nat
                              && String.eqb l.1.2 field_name))
         (db_links s) ++ [(obj, field_name, related)]) s) ;;;
  emit (EvAttached field_name obj related).

(** [self.created_objects.get(model_name, [])]. *)
Definition dict_get (d : gmap string (list Instance)) (k : string)
  : list Instance :=
  match d !! k with
  | Some v => v
  | None => []
  end.

(** *** [generate_field_value] *)

(** [field.max_length or 100]. *)
Definition max_length_or (f : Field) (dflt : Z) : Z :=
  match max_length f with
  | Some n => if n =? 0 then dflt else n
  | None => dflt
  end.

Definition timestamp_names : list string :=
  ["created"; "modified"; "creation_date"].

(** The chain of [isinstance] tests, in the order of the source.  The
    last alternative is the [return None] that follows the [try]. *)
Definition generate_field_value (field : Field) : M Value :=
  try_except
    (if isinstance field CharField then
       let max_length := max_length_or field 100 in
       if PyStr.endswith (PyStr.lower (name field)) "email" then
         faker_email
       else if PyStr.endswith (PyStr.lower (name field)) "phone" then
         s <~ faker_phone_number ;; ret (VStr (PyStr.slice_to max_length s))
       else if PyStr.endswith (PyStr.lower (name field)) "name" then
         s <~ faker_name ;; ret (VStr (PyStr.slice_to max_length s))
       else if String.eqb (PyStr.lower (name field)) "language_code" then
         ret (VStr "en")
       else
         s <~ faker_text max_length ;; ret (VStr (PyStr.slice_to max_length s))
     else if isinstance field TextField then
       s <~ faker_text 200 ;; ret (VStr s)
     else if isinstance field DateTimeField then
       if PyStr.mem (name field) timestamp_names
       then t <~ timezone_now ;; ret (VDateTime t)
       else faker_date_time_this_decade
     else if isinstance field DateField then
       if PyStr.mem (name field) timestamp_names
       then t <~ timezone_now ;; ret (VDate (date_of t))
       else faker_date_this_decade
     else if isinstance field BooleanField then
       faker_boolean
     else if isinstance field IntegerField
             || isinstance field SmallIntegerField then
       if String.eqb (name field) "index_number"
       then z <~ random_randint 1 100 ;; ret (VInt z)
       else faker_random_int 0 1000
     else if isinstance field DecimalField then
       match max_digits field, decimal_places field with
       | Some md, Some dp => faker_pydecimal (md - dp) dp true
       | _, _ => raise (TypeError "unsupported operand type(s) for -")
       end
     else if isinstance field URLField then
       faker_url
     else if isinstance field ForeignKey then
       match remote_field field with
       | None =>
           raise (AttributeError "'NoneType' object has no attribute 'model'")
       | Some related_model =>
           let related_model_name := ref_name related_model in
           related_objects <~
             gets (fun s => dict_get (created_objects s) related_model_name) ;;
           match related_objects with
           | _ :: _ =>
               o <~ random_choice related_objects ;;
               ret (VObj (inst_model o) (inst_id o))
           | [] =>
               try_except (random_first related_model_name)
                 (fun _ => ret VNone)
           end
       end
     else if isinstance field EmailField then
       faker_email
     else ret VNone)
    (fun e =>
       logger_error ("Error generating value for field " +:+ name field
                     +:+ ": " +:+ str_exn e) ;;;
       ret VNone).

(** *** [create_model_instance] *)

(** [field.get_default()]. *)
Definition get_default (f : Field) : Value :=
  match default f with
  | Some v => v
  | None =>
      if empty_strings_allowed (f_class f) && negb (null f)
      then VStr "" else VNone
  end.

(** [model()]: a new object, every field at its default. *)
Definition new_instance (model : Model) : M Instance :=
  fun s =>
    (Ok (mkInstance (qualified_name model) (next_id s)
           (foldl (fun attrs f => setattr attrs (name f) (get_default f))
              [] (fields model))),
     set_next_id (S (next_id s)) s).

Definition set_instance_attr (o : Instance) (n : string) (v : Value) :=
  mkInstance (inst_model o) (inst_id o) (setattr (inst_attrs o) n v).

Fixpoint assign_fields (fs : list Field) (instance : Instance) : M Instance :=
  match fs with
  | [] => ret instance
  | field :: rest =>
      if PyStr.mem (name field) ["id"; "pk"] then assign_fields rest instance
      else
        value <~ generate_field_value field ;;
        assign_fields rest (set_instance_attr instance (name field) value)
  end.

Definition create_model_instance (model : Model) : M Instance :=
  instance <~ new_instance model ;;
  assign_fields (fields model) instance.

(** *** [generate_data_for_model] *)

(** The body of [for i in range(...)]: the indices still to run and the
    local list [created_objects].  A model instance is truthy, so
    [if obj:] always takes the branch. *)
Fixpoint create_objects (model : Model) (model_name : string)
  (indices : list nat) (created : list Instance) : M (list Instance) :=
  match indices with
  | [] => ret created
  | i :: rest =>
      created' <~
        try_except
          (obj <~ create_model_instance model ;;
           save obj ;;;
           ret (created ++ [obj]))
          (fun e =>
             logger_error ("Error creating instance " +:+ pretty i
                           +:+ " of " +:+ model_name +:+ ": " +:+ str_exn e) ;;;
             ret created) ;;
      create_objects model model_name rest created'
  end.

Definition instances_per_model : nat := 100.

Definition generate_data_for_model (model : Model) : M unit :=
  let model_name := qualified_name model in
  try_except
    (stdout_write ("Generating data for " +:+ model_name +:+ "...") ;;;
     if abstract model then
       modify (fun s => set_skipped_models
                 ({[ model_name +:+ " (abstract)" ]} ∪ skipped_models s) s)
     else
       created <~ create_objects model model_name
                    (seq 0 instances_per_model) [] ;;
       modify (fun s => set_processed_models
                 ({[ model_name ]} ∪ processed_models s) s) ;;;
       modify (fun s => set_created_objects
                 (<[ model_name := created ]> (created_objects s)) s))
    (fun e =>
       logger_error ("Error generating data for " +:+ model_name
                     +:+ ": " +:+ str_exn e) ;;;
       modify (fun s => set_skipped_models
                 ({[ model_name ]} ∪ skipped_models s) s)).

(** *** [handle_many_to_many_relations] *)

Definition attach_related (model : Model) (field : M2MField)
  (related_objects : list Instance) (obj : Instance) : M unit :=
  num_relations <~
    random_randint 1 (Z.min 5 (Z.of_nat (length related_objects))) ;;
  related <~ random_sample related_objects num_relations ;;
  set_relation obj (m2m_name field) related.

Definition handle_many_to_many_relations (model : Model) : M unit :=
  for_each (many_to_many model) (fun field =>
    related_objects <~
      gets (fun s => dict_get (created_objects s)
                       (ref_name (m2m_remote field))) ;;
    match related_objects with
    | [] => ret tt
    | _ :: _ =>
        objs <~ gets (fun s => dict_get (created_objects s)
                                (qualified_name model)) ;;
        for_each objs (attach_related model field related_objects)
    end).

(** *** [create_base_auth_models] *)

Definition base_groups : list string :=
  ["managers"; "operators"; "superoperators"].

Definition create_base_auth_models : M unit :=
  try_except
    (for_each base_groups group_get_or_create ;;;
     found <~ superuser_exists ;;
     if negb found
     then create_superuser "admin" "admin@example.com"
     else ret tt)
    (fun e =>
       logger_error ("Error creating base auth models: " +:+ str_exn e)).

(** *** [handle] *)

(** The value of a command-line option: a list of strings, or [None]
    when the argument was not given. *)
Inductive OptionValue :=
| ONone
| OList (items : list string).

(** [add_arguments] and the parser: [--exclude] takes one or more
    strings and has no default, so [options] always has the key
    [exclude], bound to [None] when the argument is absent. *)
Definition parse_options (exclude : option (list string))
  : gmap string OptionValue :=
  {[ "exclude" := match exclude with
                  | Some items => OList items
                  | None => ONone
                  end ]}.

(** [x not in container]. *)
Definition not_in (x : string) (container : OptionValue) : M bool :=
  match container with
  | OList items => ret (negb (PyStr.mem x items))
  | ONone => raise (TypeError "argument of type 'NoneType' is not iterable")
  end.

(** The comprehension that builds [models_to_process]. *)
Fixpoint filter_models (all_models : list Model)
  (excluded_models : OptionValue) : M (list Model) :=
  match all_models with
  | [] => ret []
  | model :: rest =>
      not_excluded <~ not_in (qualified_name model) excluded_models ;;
      let keep := not_excluded && negb (String.eqb (app_label model) "auth") in
      kept <~ filter_models rest excluded_models ;;
      ret (if keep then model :: kept else kept)
  end.

(** The loop over [sorted_models]. *)
Definition process_models (sorted_models : list Model) : M unit :=
  for_each sorted_models (fun model =>
    try_except
      (generate_data_for_model model ;;;
       handle_many_to_many_relations model)
      (fun e =>
         stdout_write ("Error processing " +:+ label model
                       +:+ ": " +:+ str_exn e))).

Definition handle (options : gmap string OptionValue) : M unit :=
  let excluded_models :=
    match options !! "exclude" with
    | Some v => v
    | None => OList []
    end in
  try_except
    (create_base_auth_models ;;;
     let all_models := get_models env in
     models_to_process <~ filter_models all_models excluded_models ;;
     let sorted_models :=
       Orderer.sort_models_by_dependencies models_to_process in
     process_models sorted_models ;;;
     n <~ gets (fun s => size (processed_models s)) ;;
     stdout_write ("Successfully generated data for " +:+ pretty n
                   +:+ " models") ;;;
     skipped <~ gets skipped_models ;;
     if bool_decide (skipped = ∅) then ret tt
     else stdout_write ("Skipped models: "
                        +:+ PyStr.join ", " (elements skipped)))
    (fun e =>
       logger_error ("Error generating dummy data: " +:+ str_exn e) ;;;
       stdout_write ("Failed to generate dummy data: " +:+ str_exn e)).

End Command.


(** ** A sample environment and sample models *)

Module Sample.

(** A backend without faults and fixed generators. *)
Definition env (models : list Model) : Env :=
  {| get_models := models;
     rand := fun t => (7 * t + 3)%nat;
     now := fun t => 1700000000 + Z.of_nat t;
     db_fault := fun _ _ => None;
     fk_email := fun _ => "elizabeth.hernandez@example.org";
     fk_phone_number := fun _ => "001-555-0100x12345";
     fk_name := fun _ => "Elizabeth Hernandez";
     fk_text := fun n _ => PyStr.slice_to n "Lorem ipsum dolor sit amet consectetur.";
     fk_date_time_this_decade := fun t => 1600000000 + Z.of_nat t;
     fk_date_this_decade := fun t => 18500 + Z.of_nat t;
     fk_boolean := fun t => Nat.even t;
     fk_pydecimal := fun l r _ t =>
       mkDecimal false ((31 * Z.of_nat t + 12345) mod 10 ^ (l + r)) (- r);
     fk_url := fun _ => "https://www.example.org/" |}.

Definition plain (c : FieldClass) (n : string) : Field :=
  mkField c n None None None false None None.

(** An [EmailField] that is not named after its kind. *)
Definition contact_field : Field :=
  mkField EmailField "contact" (Some 254) None None false None None.

(** [CharField(max_length=30)] named [user_email]. *)
Definition user_email_field : Field :=
  mkField CharField "user_email" (Some 30) None None false None None.

(** [DecimalField(max_digits=5, decimal_places=2)]. *)
Definition amount_field : Field :=
  mkField DecimalField "amount" None (Some 5) (Some 2) false None None.

(** [GenericIPAddressField(default="127.0.0.1")]. *)
Definition ip_field : Field :=
  mkField GenericIPAddressField "ip" None None None false
    (Some (VStr "127.0.0.1")) None.

Definition tag_ref : ModelRef := mkModelRef "crm" "tag".

(** [ForeignKey(Tag, on_delete=...)]. *)
Definition tag_field : Field :=
  mkField ForeignKey "tag" None None None false None (Some tag_ref).

Definition tag_model : Model :=
  mkModel "crm" "tag" "crm.Tag" false
    [plain AutoField "id"; mkField CharField "name" (Some 20) None None false None None]
    [].

Definition host_model : Model :=
  mkModel "crm" "host" "crm.Host" false
    [plain AutoField "id"; ip_field] [].

Definition deal_model : Model :=
  mkModel "crm" "deal" "crm.Deal" false
    [plain AutoField "id"; user_email_field; amount_field; tag_field]
    [mkM2M "tags" tag_ref].

Definition start : State := initial_state [] [] [].

(** The discovered models, in registry order: [deal] refers to [tag],
    which comes last. *)
Definition registry : list Model := [deal_model; host_model; tag_model].

(** A processing order: [deal] comes after [tag], which it refers to,
    and before [host]. *)
Definition three_models : list Model := [tag_model; deal_model; host_model].

(** A backend that refuses to save every other object. *)
Definition flaky_env (models : list Model) : Env :=
  {| get_models := models;
     rand := rand (env models);
     now := now (env models);
     db_fault := fun t op =>
       match op with
       | OpSave o =>
           if Nat.even (inst_id o)
           then Some (IntegrityError "NOT NULL constraint failed")
           else None
       | _ => None
       end;
     fk_email := fk_email (env models);
     fk_phone_number := fk_phone_number (env models);
     fk_name := fk_name (env models);
     fk_text := fk_text (env models);
     fk_date_time_this_decade := fk_date_time_this_decade (env models);
     fk_date_this_decade := fk_date_this_decade (env models);
     fk_boolean := fk_boolean (env models);
     fk_pydecimal := fk_pydecimal (env models);
     fk_url := fk_url (env models) |}.

End Sample.

(** * Vocabulary of the properties *)

(** The field kinds [generate_field_value] tests for. *)
Definition recognized (f : Field) : bool :=
  isinstance f CharField || isinstance f TextField
  || isinstance f DateTimeField || isinstance f DateField
  || isinstance f BooleanField || isinstance f IntegerField
  || isinstance f SmallIntegerField || isinstance f DecimalField
  || isinstance f URLField || isinstance f ForeignKey
  || isinstance f EmailField.
(** [keeps P s s']: from [s] to [s'] the ledger, the persisted instances
    and the allocator are unchanged, and the events added to the trace
    all satisfy [P]. *)
Definition keeps (P : Event -> Prop) (s s' : State) : Prop :=
  created_objects s' = created_objects s /\
  db_rows s' = db_rows s /\
  next_id s' = next_id s /\
  exists evs, trace s' = trace s ++ evs /\ Forall P evs.

(** A computation that [keeps P] from every state. *)
Definition quiet (P : Event -> Prop) {A} (m : M A) : Prop :=
  forall s, keeps P s (m s).2.

Definition is_log (e : Event) : Prop :=
  match e with EvLogError _ => True | _ => False end.

(** What the synthesizer can add to the trace. *)
Definition is_log_or_query (e : Event) : Prop :=
  match e with EvLogError _ | EvQuery _ => True | _ => False end.
(** Bootstrap: how many groups carry a name, how many accounts are
    administrative. *)
Definition group_count (g : string) (s : State) : nat :=
  length (filter (fun x => x = g) (db_groups s)).

Definition superuser_count (s : State) : nat :=
  length (filter (fun u => is_superuser u = true) (db_users s)).

Definition has_superuser (s : State) : Prop :=
  existsb is_superuser (db_users s) = true.

(** The groups of [s'] are those of [s] followed by distinct base groups
    that [s] did not have. *)
Definition groups_grow (s s' : State) : Prop :=
  exists added, db_groups s' = db_groups s ++ added /\ NoDup added /\
                forall g, g ∈ added -> (g ∉ db_groups s) /\ (g ∈ base_groups).

(** The accounts of [s'] are those of [s], followed by one administrative
    account only when [s] had none. *)
Definition users_grow (s s' : State) : Prop :=
  db_users s' = db_users s \/
  (~ has_superuser s /\
   exists u, is_superuser u = true /\ db_users s' = db_users s ++ [u]).
(** An event other than the outcome of a [save]. *)
Definition not_save (e : Event) : Prop :=
  match e with EvSaved _ | EvSaveFailed _ => False | _ => True end.

(** The persistence of [o] completed: its [save] returned and the store
    holds it. *)
Definition persisted (s : State) (o : Instance) : Prop :=
  EvSaved o ∈ trace s /\ o ∈ db_rows s.

(** The invariant of the creation ledger: its entries hold persisted
    instances only; the objects whose [save] returned or raised were
    allocated earlier; no object whose [save] raised is one whose [save]
    returned. *)
Record ledger_sound (s : State) : Prop := {
  ledger_persisted : forall k objs o,
    created_objects s !! k = Some objs -> o ∈ objs -> persisted s o;
  ids_allocated : forall o,
    EvSaved o ∈ trace s \/ EvSaveFailed o ∈ trace s ->
    (inst_id o < next_id s)%nat;
  failures_apart : forall o o',
    EvSaveFailed o ∈ trace s -> EvSaved o' ∈ trace s ->
    inst_id o <> inst_id o'
}.

(** A computation that maintains a state invariant. *)
Definition preserves (I : State -> Prop) {A} (m : M A) : Prop :=
  forall s, I s -> I (m s).2.

(** The points of a run: the state of a fresh command over some store,
    and the states the steps of [handle] lead to. *)
Inductive run_state (env : Env) : State -> Prop :=
| run_start groups users rows :
    run_state env (initial_state groups users rows)
| run_bootstrap s :
    run_state env s -> run_state env (create_base_auth_models env s).2
| run_generate s model :
    run_state env s -> run_state env (generate_data_for_model env model s).2
| run_wire s model :
    run_state env s ->
    run_state env (handle_many_to_many_relations env model s).2
| run_process s models :
    run_state env s -> run_state env (process_models env models s).2
| run_handle s options :
    run_state env s -> run_state env (handle env options s).2.

(** The events of the generation of [model]: anything but an attachment,
    and saves of instances of [model] only. *)
Definition generation_event (model : Model) (e : Event) : Prop :=
  match e with
  | EvAttached _ _ _ => False
  | EvSaved o | EvSaveFailed o => inst_model o = qualified_name model
  | _ => True
  end.

(** The events of the wiring of [model]: attachments to instances of
    [model], and the warning of [handle] when the wiring raised. *)
Definition wiring_event (model : Model) (e : Event) : Prop :=
  match e with
  | EvAttached _ o _ => inst_model o = qualified_name model
  | EvStdout _ => True
  | _ => False
  end.

(** A trace in phases: for each model of the sequence in turn, the
    events of its generation, then the events of its wiring. *)
Inductive phased : list Model -> list Event -> Prop :=
| phased_nil : phased [] []
| phased_cons model models generation wiring rest :
    Forall (generation_event model) generation ->
    Forall (wiring_event model) wiring ->
    phased models rest ->
    phased (model :: models) (generation ++ wiring ++ rest).
(** The model whose instance an attachment event wires, and the model of
    the instance a save event persists. *)
Definition attached_to (e : Event) : option string :=
  match e with EvAttached _ o _ => Some (inst_model o) | _ => None end.

Definition saved_of (e : Event) : option string :=
  match e with EvSaved o => Some (inst_model o) | _ => None end.

(** Wiring only after all generation: every save of an instance of
    another model comes before every attachment. *)
Definition wiring_after_all_generation (t : list Event) : Prop :=
  forall i j k k',
    t !! i ≫= attached_to = Some k ->
    t !! j ≫= saved_of = Some k' ->
    k' <> k -> (j < i)%nat.
(** In the sequence [l], every required target of a model that belongs
    to the set [ms] occurs before the model. *)
Definition targets_first (ms l : list Model) : Prop :=
  forall before m after,
    l = before ++ m :: after ->
    forall r, r ∈ Orderer.required_targets m -> r ∈ Orderer.names ms ->
              r ∈ Orderer.names before.

(** A walk from [x] along [R] through the elements of [p]. *)
Fixpoint walk {A} (R : A -> A -> Prop) (x : A) (p : list A) : Prop :=
  match p with
  | [] => True
  | y :: q => R x y /\ walk R y q
  end.

(** * Vocabulary of the further properties *)

(** The field [f] declared as a plain [CharField]. *)
Definition as_char_field (f : Field) : Field :=
  mkField CharField (name f) (max_length f) (max_digits f) (decimal_places f)
    (null f) (default f) (remote_field f).

(** The kinds of the values other than [None]. *)
Inductive ValueKind := KStr | KInt | KBool | KDecimal | KDateTime | KDate | KObj.

Definition kind_of (v : Value) : option ValueKind :=
  match v with
  | VNone => None
  | VStr _ => Some KStr
  | VInt _ => Some KInt
  | VBool _ => Some KBool
  | VDecimal _ => Some KDecimal
  | VDateTime _ => Some KDateTime
  | VDate _ => Some KDate
  | VObj _ _ => Some KObj
  end.

(** The kind of value a field of the class stores, for the classes the
    command synthesizes. *)
Definition stored_kind (c : FieldClass) : option ValueKind :=
  match c with
  | CharField | EmailField | URLField | SlugField | TextField => Some KStr
  | DateField => Some KDate
  | DateTimeField => Some KDateTime
  | BooleanField => Some KBool
  | IntegerField | SmallIntegerField | BigIntegerField
  | PositiveIntegerField | PositiveSmallIntegerField | AutoField => Some KInt
  | DecimalField => Some KDecimal
  | ForeignKey | OneToOneField => Some KObj
  | _ => None
  end.

(** The attributes of [self] are the same in both states. *)
Definition same_self (s s' : State) : Prop :=
  created_objects s' = created_objects s /\
  processed_models s' = processed_models s /\
  skipped_models s' = skipped_models s.

(** A computation that leaves the attributes of [self] alone. *)
Definition steady {A} (m : M A) : Prop := forall s, same_self s (m s).2.

Definition is_save_failed (e : Event) : bool :=
  match e with EvSaveFailed _ => true | _ => false end.

(** The number of failed saves among the events. *)
Definition failed_saves (evs : list Event) : nat :=
  length (List.filter is_save_failed evs).

(** The marks [processed_models] and [skipped_models] only grow. *)
Definition marks_grow (s s' : State) : Prop :=
  processed_models s ⊆ processed_models s' /\
  skipped_models s ⊆ skipped_models s'.

(** The shape of the ledger: an entry belongs to a processed model and
    holds at most [instances_per_model] instances, all of that model. *)
Definition ledger_shape (s : State) : Prop :=
  forall k objs,
    created_objects s !! k = Some objs ->
    k ∈ processed_models s /\
    (length objs <= instances_per_model)%nat /\
    Forall (fun o => inst_model o = k) objs.

(** The mark the loop leaves for a model: processed, or skipped as
    abstract. *)
Definition marked (m : Model) (s : State) : Prop :=
  if abstract m
  then (qualified_name m +:+ " (abstract)") ∈ skipped_models s
  else qualified_name m ∈ processed_models s.

(** The ledger is typed: the entry of a model holds instances of that
    model. *)
Definition ledger_typed (s : State) : Prop :=
  forall k objs o,
    created_objects s !! k = Some objs -> o ∈ objs -> inst_model o = k.

(** An attachment of the wiring of [model] over a ledger: for a
    many-to-many field of the model, an instance of the model's ledger
    entry receives between 1 and 5 instances drawn from the ledger
    entry of the field's target. *)
Definition wires (model : Model) (ledger : gmap string (list Instance))
  (e : Event) : Prop :=
  exists field o related,
    e = EvAttached (m2m_name field) o related /\
    field ∈ many_to_many model /\
    o ∈ dict_get ledger (qualified_name model) /\
    (1 <= length related <= 5)%nat /\
    related ⊆+ dict_get ledger (ref_name (m2m_remote field)).

(** Further sample fields and instances. *)
Module Cases.

(** [CharField(max_length=12)] named after a phone. *)
Definition phone_field : Field :=
  mkField CharField "Mobile_Phone" (Some 12) None None false None None.

(** [CharField(max_length=3)]. *)
Definition code_field : Field :=
  mkField CharField "code" (Some 3) None None false None None.

(** [URLField()]. *)
Definition website_field : Field :=
  mkField URLField "website" (Some 200) None None false None None.

(** [PositiveIntegerField()]. *)
Definition age_field : Field :=
  mkField PositiveIntegerField "age" None None None false None None.

(** [DecimalField(max_digits=2, decimal_places=4)]. *)
Definition broken_price_field : Field :=
  mkField DecimalField "price" None (Some 2) (Some 4) false None None.

(** The primary key. *)
Definition key_field : Field := Sample.plain AutoField "id".

(** [id = UUIDField(primary_key=True, default=...)], with the value the
    default produces, and a model that has it. *)
Definition uuid_key_field : Field :=
  mkField UUIDField "id" None None None false
    (Some (VStr "7c9e6679-7425-40de-944b-e07fc1f90ae7")) None.

Definition token_model : Model :=
  mkModel "crm" "token" "crm.Token" false [uuid_key_field; Sample.ip_field] [].

(** An instance of [tag] persisted by an earlier run. *)
Definition one_tag : Instance := mkInstance "crm.tag" 7 [("name", VStr "old")].

(** An instance of [deal]. *)
Definition one_deal : Instance := mkInstance "crm.deal" 9 [].

(** A run in whose ledger [tag] has an instance. *)
Definition ledger_state : State :=
  set_created_objects {[ "crm.tag" := [one_tag] ]}
    (initial_state [] [] [one_tag]).

Definition user_ref : ModelRef := mkModelRef "auth" "user".

(** [ForeignKey(User, on_delete=...)]. *)
Definition owner_field : Field :=
  mkField ForeignKey "owner" None None None false None (Some user_ref).

(** A model of one [TextField]. *)
Definition note_model : Model :=
  mkModel "crm" "note" "crm.Note" false
    [Sample.plain AutoField "id"; Sample.plain TextField "body"] [].

(** A model with a title, a required relation to [tag] and a
    many-to-many relation to [tag]. *)
Definition article_model : Model :=
  mkModel "crm" "article" "crm.Article" false
    [Sample.plain AutoField "id";
     mkField CharField "title" (Some 100) None None false None None;
     Sample.tag_field]
    [mkM2M "tags" Sample.tag_ref].

(** A processing order of three models whose instances get a value
    that fits in every field: [article] refers to [tag] and comes
    before [note]. *)
Definition wired_models : list Model :=
  [Sample.tag_model; article_model; note_model].

Definition is_none (v : Value) : bool :=
  match v with VNone => true | _ => false end.

(** A backend that enforces NOT NULL: it refuses to save an object that
    has [None] in a column other than the key, which it assigns. *)
Definition strict_env (models : list Model) : Env :=
  {| get_models := models;
     rand := rand (Sample.env models);
     now := now (Sample.env models);
     db_fault := fun t op =>
       match op with
       | OpSave o =>
           if existsb (fun kv => negb (String.eqb kv.1 "id") && is_none kv.2)
                (inst_attrs o)
           then Some (IntegrityError "NOT NULL constraint failed")
           else None
       | _ => None
       end;
     fk_email := fk_email (Sample.env models);
     fk_phone_number := fk_phone_number (Sample.env models);
     fk_name := fk_name (Sample.env models);
     fk_text := fk_text (Sample.env models);
     fk_date_time_this_decade := fk_date_time_this_decade (Sample.env models);
     fk_date_this_decade := fk_date_this_decade (Sample.env models);
     fk_boolean := fk_boolean (Sample.env models);
     fk_pydecimal := fk_pydecimal (Sample.env models);
     fk_url := fk_url (Sample.env models) |}.

End Cases.

(** * Properties *)

Ltac unfold_cmd :=
  unfold stdout_write, logger_error, bind, ret, raise, try_except, gets,
    tick, emit, modify in *.

(** ** The field value synthesizer *)

Section Synthesizer.

Variable env : Env.

(** The [except] clause of [generate_field_value] absorbs every
    exception of the body. *)
Lemma generate_field_value_returns (f : Field) (s : State) :
  exists v s', generate_field_value env f s = (Ok v, s').
Proof.
  unfold generate_field_value.
  match goal with |- context [try_except ?b ?h] => set (body := b) end.
  unfold try_except. destruct (body s) as [[v|e] s1]; [eauto|].
  unfold_cmd. eauto.
Qed.

(** A field whose class passes none of the tests gets [None], and the
    state is untouched. *)
Lemma unrecognized_gets_none (f : Field) (s : State) :
  recognized f = false -> generate_field_value env f s = (Ok VNone, s).
Proof.
  unfold recognized, generate_field_value. intros H.
  repeat (apply orb_false_elim in H; destruct H as [H ?]).
  repeat match goal with E : isinstance f _ = false |- _ =>
    rewrite E; clear E end.
  reflexivity.
Qed.

End Synthesizer.

Lemma sample_faker_contract (models : list Model) :
  FakerContract (Sample.env models).
Proof.
  split.
  - intros t. reflexivity.
  - intros l r t Hl Hr Hlr. cbn.
    repeat split; try apply Z.mod_pos_bound; lia.
Qed.

Lemma isinstance_of_class (f : Field) (c k : FieldClass) :
  f_class f = k -> isinstance f c = bool_decide (c ∈ mro k).
Proof. intros <-. reflexivity. Qed.

(** C9.  For a decimal field with [max_digits=5] and [decimal_places=2]
    the synthesizer asks the fake source for 3 integer and 2 fractional
    digits, positive: the value has at most 3 integer digits, exactly 2
    fractional digits, and is not negative. *)
Theorem decimal_field_digits (env : Env) (f : Field) (s : State) :
  FakerContract env ->
  f_class f = DecimalField ->
  max_digits f = Some 5 -> decimal_places f = Some 2 ->
  exists d, (generate_field_value env f s).1 = Ok (VDecimal d) /\
            at_most_integer_digits 3 d /\
            fractional_digits d = 2 /\
            dec_negative d = false.
Proof.
  intros Hfk Hc Hmd Hdp.
  unfold generate_field_value.
  rewrite !(isinstance_of_class f _ _ Hc), Hmd, Hdp.
  destruct (fk_pydecimal_digits env Hfk 3 2 (clock s)) as (Hneg & Hexp & Hco);
    [lia..|].
  eexists. split; [reflexivity|].
  unfold at_most_integer_digits, integer_part, fractional_digits.
  change (5 - 2) with 3. rewrite Hexp, Hneg.
  change (- 2 <? 0) with true. cbn [Z.opp Pos.succ].
  change (- - 2) with 2.
  repeat split; try lia.
  - apply Z.div_pos; lia.
  - apply Z.div_lt_upper_bound; lia.
Qed.

Lemma decimal_field_digits_witness :
  exists d, (generate_field_value (Sample.env []) Sample.amount_field
               Sample.start).1 = Ok (VDecimal d) /\
            at_most_integer_digits 3 d /\
            fractional_digits d = 2 /\
            dec_negative d = false.
Proof.
  apply (decimal_field_digits (Sample.env []) Sample.amount_field Sample.start);
    [apply sample_faker_contract | reflexivity..].
Defined.

(** C5.  An [EmailField] is a [CharField], so the first test of the
    chain takes it: under the name [contact] it gets truncated text from
    [faker.text], not an address, whatever the environment.  In the
    sample environment, whose generators honour the contract, the value
    has no email shape. *)
Theorem email_field_takes_text_branch (env : Env) (s : State) :
  (generate_field_value env Sample.contact_field s).1
  = Ok (VStr (PyStr.slice_to 254 (fk_text env 254 (clock s)))) /\
  FakerContract (Sample.env []) /\
  exists v, (generate_field_value (Sample.env []) Sample.contact_field
               Sample.start).1 = Ok (VStr v) /\
            email_shape v = false.
Proof.
  split; [reflexivity|]. split; [apply sample_faker_contract|].
  eexists. split; reflexivity.
Qed.

(** C6 does not hold of the code.  For the short-text field named
    [user_email] with a declared maximum of 30, the synthesizer returns
    the address of the fake source whole: the value has an email shape,
    but an address of 31 characters exceeds the maximum.  The branches
    for phones, names and sentences (lines 145, 147, 151) slice their
    value to [max_length]; the email branch (line 143) does not. *)
Lemma user_email_exceeds_max_length :
  FakerContract (Sample.env []) /\
  max_length Sample.user_email_field = Some 30 /\
  (generate_field_value (Sample.env []) Sample.user_email_field
     Sample.start).1 = Ok (VStr "elizabeth.hernandez@example.org") /\
  email_shape "elizabeth.hernandez@example.org" = true /\
  ~ (String.length "elizabeth.hernandez@example.org" <= 30)%nat.
Proof.
  split; [apply sample_faker_contract|].
  repeat split. cbn. lia.
Qed.

(** ** The relationship resolver *)

Lemma random_choice_member {A} (env : Env) (xs : list A) (s : State) :
  xs <> [] ->
  exists x, x ∈ xs /\
            random_choice env xs s = (Ok x, set_clock (S (clock s)) s).
Proof.
  intros Hne. unfold random_choice. unfold_cmd. cbn.
  assert (Hlt : (rand env (clock s) mod length xs < length xs)%nat).
  { apply Nat.mod_upper_bound. destruct xs; [done|]. cbn. lia. }
  destruct (lookup_lt_is_Some_2 _ _ Hlt) as [x Hx].
  exists x. split; [eapply list_elem_of_lookup_2; eauto|].
  rewrite Hx. reflexivity.
Qed.

Lemma foreign_key_classes (f : Field) :
  isinstance f ForeignKey = true ->
  f_class f = ForeignKey \/ f_class f = OneToOneField.
Proof.
  unfold isinstance. destruct (f_class f); vm_compute; intros H; auto;
    discriminate.
Qed.

(** The stored instances are read off the accounts, the groups and the
    rows only. *)
Lemma stored_refs_ext (model : string) (s s' : State) :
  db_users s' = db_users s -> db_groups s' = db_groups s ->
  db_rows s' = db_rows s ->
  stored_refs model s' = stored_refs model s.
Proof.
  intros Hu Hg Hr. unfold stored_refs. rewrite Hu, Hg, Hr. reflexivity.
Qed.

(** C7.  With no instance of the target in the ledger and none in the
    store (no persisted row of the target and, for the targets
    [auth.user] and [auth.group], no account and no group), the resolver
    answers [None] (an [Ok] result: nothing is raised, also when the
    query fails); with instances in the ledger it answers one of them,
    without a query and without touching the store. *)
Theorem relationship_resolver (env : Env) (f : Field) (r : ModelRef)
  (s : State) :
  isinstance f ForeignKey = true ->
  remote_field f = Some r ->
  (dict_get (created_objects s) (ref_name r) = [] ->
   stored_refs (ref_name r) s = [] ->
   (generate_field_value env f s).1 = Ok VNone) /\
  (dict_get (created_objects s) (ref_name r) <> [] ->
   exists o, o ∈ dict_get (created_objects s) (ref_name r) /\
     (generate_field_value env f s).1 = Ok (VObj (inst_model o) (inst_id o)) /\
     trace (generate_field_value env f s).2 = trace s /\
     db_rows (generate_field_value env f s).2 = db_rows s).
Proof.
  intros Hfk Hr.
  assert (Hbody : forall k, f_class f = k ->
            k = ForeignKey \/ k = OneToOneField ->
            isinstance f CharField = false /\ isinstance f TextField = false /\
            isinstance f DateTimeField = false /\ isinstance f DateField = false /\
            isinstance f BooleanField = false /\
            isinstance f IntegerField = false /\
            isinstance f SmallIntegerField = false /\
            isinstance f DecimalField = false /\ isinstance f URLField = false).
  { intros k Hk [-> | ->]; rewrite !(isinstance_of_class f _ _ Hk);
      vm_compute; auto 10. }
  destruct (Hbody _ eq_refl (foreign_key_classes f Hfk))
    as (H1 & H2 & H3 & H4 & H5 & H6 & H7 & H8 & H9).
  unfold generate_field_value.
  rewrite H1, H2, H3, H4, H5, H6, H7, H8, H9, Hfk, Hr. cbn [orb].
  split.
  - intros Hledger Hrows. unfold_cmd. rewrite Hledger.
    unfold random_first, db_issue. unfold_cmd. cbn.
    destruct (db_fault env (clock s) (OpRandomFirst (ref_name r)));
      [reflexivity|].
    cbn -[stored_refs].
    rewrite (stored_refs_ext _ s) by reflexivity.
    rewrite Hrows. reflexivity.
  - intros Hledger.
    destruct (random_choice_member env _ s Hledger) as (o & Ho & Hpick).
    exists o. split; [exact Ho|].
    unfold_cmd. destruct (dict_get (created_objects s) (ref_name r)) eqn:E;
      [done|].
    rewrite Hpick. cbn. auto.
Qed.

Lemma relationship_resolver_witness :
  (isinstance Sample.tag_field ForeignKey = true /\
   remote_field Sample.tag_field = Some Sample.tag_ref /\
   dict_get (created_objects Sample.start) (ref_name Sample.tag_ref) = [] /\
   stored_refs (ref_name Sample.tag_ref) Sample.start = [] /\
   (generate_field_value (Sample.env []) Sample.tag_field Sample.start).1
   = Ok VNone) /\
  (dict_get (created_objects Cases.ledger_state) (ref_name Sample.tag_ref)
   <> [] /\
   exists o,
     o ∈ dict_get (created_objects Cases.ledger_state)
           (ref_name Sample.tag_ref) /\
     (generate_field_value (Sample.env []) Sample.tag_field
        Cases.ledger_state).1 = Ok (VObj (inst_model o) (inst_id o)) /\
     trace (generate_field_value (Sample.env []) Sample.tag_field
              Cases.ledger_state).2 = trace Cases.ledger_state /\
     db_rows (generate_field_value (Sample.env []) Sample.tag_field
                Cases.ledger_state).2 = db_rows Cases.ledger_state).
Proof.
  assert (Hne : dict_get (created_objects Cases.ledger_state)
                  (ref_name Sample.tag_ref) <> [])
    by (vm_compute; discriminate).
  split.
  - do 4 (split; [reflexivity|]).
    apply (relationship_resolver (Sample.env []) Sample.tag_field
             Sample.tag_ref Sample.start); reflexivity.
  - split; [exact Hne|].
    apply (relationship_resolver (Sample.env []) Sample.tag_field
             Sample.tag_ref Cases.ledger_state eq_refl eq_refl).
    exact Hne.
Defined.

(** ** The instance builder *)

Lemma getattr_setattr_eq (attrs : list (string * Value)) (n : string)
  (v : Value) :
  getattr (setattr attrs n v) n = Some v.
Proof.
  induction attrs as [|[k w] attrs IH]; cbn.
  - rewrite String.eqb_refl. reflexivity.
  - destruct (String.eqb k n) eqn:E; cbn; rewrite E; auto.
Qed.

Lemma getattr_setattr_ne (attrs : list (string * Value)) (n n' : string)
  (v : Value) :
  n <> n' -> getattr (setattr attrs n v) n' = getattr attrs n'.
Proof.
  intros Hne. induction attrs as [|[k w] attrs IH]; cbn.
  - destruct (String.eqb_spec n n'); [done|reflexivity].
  - destruct (String.eqb_spec k n) as [->|Hk]; cbn.
    + destruct (String.eqb_spec n n'); [done|reflexivity].
    + destruct (String.eqb k n'); auto.
Qed.

Section Builder.

Variable env : Env.

(** The builder runs to the end, whatever the fields. *)
Lemma assign_fields_returns (fs : list Field) (instance : Instance)
  (s : State) :
  exists o s', assign_fields env fs instance s = (Ok o, s') /\
               inst_id o = inst_id instance /\
               inst_model o = inst_model instance.
Proof.
  revert instance s. induction fs as [|f fs IH]; intros instance s; cbn [assign_fields].
  - unfold ret. eauto.
  - destruct (PyStr.mem (name f) ["id"; "pk"]); [apply IH|].
    unfold bind.
    destruct (generate_field_value_returns env f s) as (v & s1 & ->).
    destruct (IH (set_instance_attr instance (name f) v) s1)
      as (o & s' & -> & Hid & Hm).
    eauto.
Qed.

(** Attributes that no field names are not touched. *)
Lemma assign_fields_other (fs : list Field) (instance o : Instance)
  (s s' : State) (n : string) :
  assign_fields env fs instance s = (Ok o, s') ->
  n ∉ map name fs ->
  getattr (inst_attrs o) n = getattr (inst_attrs instance) n.
Proof.
  revert instance s. induction fs as [|f fs IH]; intros instance s; cbn [assign_fields].
  - unfold ret. intros [= <- _] _. reflexivity.
  - intros Hrun Hn. apply not_elem_of_cons in Hn as [Hne Hn].
    destruct (PyStr.mem (name f) ["id"; "pk"]); [eapply IH; eauto|].
    unfold bind in Hrun.
    destruct (generate_field_value_returns env f s) as (v & s1 & Hv).
    rewrite Hv in Hrun.
    rewrite (IH _ _ Hrun Hn). cbn [set_instance_attr inst_attrs].
    apply getattr_setattr_ne. congruence.
Qed.

(** The attribute of an unrecognized field ends as [None]. *)
Lemma assign_fields_unrecognized (fs : list Field) (f : Field)
  (instance o : Instance) (s s' : State) :
  assign_fields env fs instance s = (Ok o, s') ->
  NoDup (map name fs) -> f ∈ fs ->
  recognized f = false ->
  PyStr.mem (name f) ["id"; "pk"] = false ->
  getattr (inst_attrs o) (name f) = Some VNone.
Proof.
  intros Hrun Hnd Hin Hrec Hpk.
  revert instance s Hrun Hnd Hin.
  induction fs as [|g fs IH]; intros instance s Hrun Hnd Hin.
  - inversion Hin.
  - cbn in Hnd. apply NoDup_cons in Hnd as [Hg Hnd].
    apply elem_of_cons in Hin as [<- | Hin].
    + cbn [assign_fields] in Hrun. rewrite Hpk in Hrun. unfold bind in Hrun.
      rewrite (unrecognized_gets_none env f s Hrec) in Hrun.
      rewrite (assign_fields_other _ _ _ _ _ _ Hrun Hg).
      cbn [set_instance_attr inst_attrs].
      apply getattr_setattr_eq.
    + cbn [assign_fields] in Hrun.
      destruct (PyStr.mem (name g) ["id"; "pk"]); [eapply IH; eauto|].
      unfold bind in Hrun.
      destruct (generate_field_value_returns env g s) as (v & s1 & Hv).
      rewrite Hv in Hrun. eapply IH; eauto.
Qed.

End Builder.

(** C4, as stated, fails: a field of an unrecognized kind with a declared
    default does not keep it, the builder assigns [None] over it. *)
Lemma unrecognized_field_loses_default :
  recognized Sample.ip_field = false /\
  get_default Sample.ip_field = VStr "127.0.0.1" /\
  exists o s',
    create_model_instance (Sample.env []) Sample.host_model Sample.start
    = (Ok o, s') /\
    getattr (inst_attrs o) "ip" = Some VNone /\
    getattr (inst_attrs o) "ip" <> Some (get_default Sample.ip_field).
Proof.
  split; [reflexivity|]. split; [reflexivity|].
  do 2 eexists. split; [reflexivity|]. split; [reflexivity|]. discriminate.
Qed.

(** ** Frame reasoning: what a computation leaves alone *)

Section Frame.

Variable P : Event -> Prop.

Lemma keeps_refl (s : State) : keeps P s s.
Proof.
  repeat split. exists []. rewrite app_nil_r. auto.
Qed.

Lemma keeps_trans (a b c : State) : keeps P a b -> keeps P b c -> keeps P a c.
Proof.
  intros (H1 & H2 & H3 & e1 & H4 & H5) (K1 & K2 & K3 & e2 & K4 & K5).
  repeat split; try congruence.
  exists (e1 ++ e2). rewrite K4, H4, app_assoc. split; [done|].
  apply Forall_app; auto.
Qed.

Lemma quiet_ret {A} (a : A) : quiet P (ret a).
Proof. intros s. apply keeps_refl. Qed.

Lemma quiet_raise {A} (e : Exn) : quiet P (@raise A e).
Proof. intros s. apply keeps_refl. Qed.

Lemma quiet_gets {A} (f : State -> A) : quiet P (gets f).
Proof. intros s. apply keeps_refl. Qed.

Lemma quiet_tick : quiet P tick.
Proof. intros s. cbn. repeat split. exists []. rewrite app_nil_r. auto. Qed.

Lemma quiet_emit (e : Event) : P e -> quiet P (emit e).
Proof. intros He s. cbn. repeat split. exists [e]. auto. Qed.

Lemma quiet_modify (f : State -> State) :
  (forall s, created_objects (f s) = created_objects s /\
             db_rows (f s) = db_rows s /\
             next_id (f s) = next_id s /\
             trace (f s) = trace s) ->
  quiet P (modify f).
Proof.
  intros Hf s. destruct (Hf s) as (H1 & H2 & H3 & H4). cbn.
  repeat split; auto. exists []. rewrite app_nil_r. auto.
Qed.

Lemma quiet_bind {A B} (m : M A) (k : A -> M B) :
  quiet P m -> (forall a, quiet P (k a)) -> quiet P (bind m k).
Proof.
  intros Hm Hk s. unfold bind. specialize (Hm s).
  destruct (m s) as [[a|e] s1]; cbn in Hm; [|exact Hm].
  eapply keeps_trans; [exact Hm|apply Hk].
Qed.

Lemma quiet_try_except {A} (m : M A) (h : Exn -> M A) :
  quiet P m -> (forall e, quiet P (h e)) -> quiet P (try_except m h).
Proof.
  intros Hm Hh s. unfold try_except. specialize (Hm s).
  destruct (m s) as [[a|e] s1]; cbn in Hm; [exact Hm|].
  eapply keeps_trans; [exact Hm|apply Hh].
Qed.

Lemma quiet_for_each {A} (xs : list A) (body : A -> M unit) :
  (forall x, quiet P (body x)) -> quiet P (for_each xs body).
Proof.
  intros Hb. induction xs as [|x xs IH]; cbn [for_each].
  - apply quiet_ret.
  - apply quiet_bind; auto.
Qed.

End Frame.

(** One step of a frame proof: follow the structure of the computation,
    splitting on the tests it makes. *)
Ltac quiet_step :=
  match goal with
  | |- quiet _ (ret _) => apply quiet_ret
  | |- quiet _ (raise _) => apply quiet_raise
  | |- quiet _ (gets _) => apply quiet_gets
  | |- quiet _ tick => apply quiet_tick
  | |- quiet _ (bind _ _) => apply quiet_bind; [|intros ?]
  | |- quiet _ (try_except _ _) => apply quiet_try_except; [|intros ?]
  | |- quiet _ (for_each _ _) => apply quiet_for_each; intros ?
  | |- quiet _ (emit _) => apply quiet_emit; try exact I
  | |- quiet _ (stdout_write _) => apply quiet_emit; try exact I
  | |- quiet _ (logger_error _) => apply quiet_emit; try exact I
  | |- quiet _ (modify _) => apply quiet_modify; intros ?; cbn; auto
  | |- quiet _ (if ?b then _ else _) => destruct b
  | |- quiet _ (match ?x with _ => _ end) => destruct x
  end.

Section FrameOfCommand.

Variable env : Env.
Variable P : Event -> Prop.

Lemma quiet_random_randint (a b : Z) : quiet P (random_randint env a b).
Proof. unfold random_randint. repeat quiet_step. Qed.

Lemma quiet_random_choice {A} (xs : list A) : quiet P (random_choice env xs).
Proof. unfold random_choice. repeat quiet_step. Qed.

Lemma quiet_draw_sample {A} (k : nat) (xs : list A) :
  quiet P (draw_sample env k xs).
Proof.
  revert xs. induction k as [|k IH]; intros xs; cbn [draw_sample];
    repeat quiet_step. apply IH.
Qed.

Lemma quiet_random_sample {A} (xs : list A) (k : Z) :
  quiet P (random_sample env xs k).
Proof. unfold random_sample. repeat quiet_step. apply quiet_draw_sample. Qed.

Lemma quiet_faker_text (n : Z) : quiet P (faker_text env n).
Proof. unfold faker_text. repeat quiet_step. Qed.

Lemma quiet_faker_pydecimal (l r : Z) (b : bool) :
  quiet P (faker_pydecimal env l r b).
Proof. unfold faker_pydecimal. repeat quiet_step. Qed.

Lemma quiet_db_issue (op : DbOp) : quiet P (db_issue env op).
Proof. unfold db_issue. repeat quiet_step. Qed.

Lemma quiet_random_first (model : string) :
  P (EvQuery model) -> quiet P (random_first env model).
Proof.
  intros HP. unfold random_first.
  repeat first [apply quiet_db_issue | apply quiet_random_choice
               | apply quiet_emit; exact HP | quiet_step].
Qed.

Lemma quiet_generate_field_value (f : Field) :
  (forall e, is_log_or_query e -> P e) ->
  quiet P (generate_field_value env f).
Proof.
  intros HP. unfold generate_field_value.
  unfold faker_email, faker_phone_number, faker_name,
    faker_date_time_this_decade, faker_date_this_decade, faker_boolean,
    faker_random_int, faker_url, timezone_now.
  apply quiet_try_except.
  - repeat first [ apply quiet_random_randint | apply quiet_random_choice
                 | apply quiet_faker_text | apply quiet_faker_pydecimal
                 | apply quiet_random_first; apply HP; exact I
                 | quiet_step ].
  - intros e. apply quiet_bind; [|intros ?; apply quiet_ret].
    apply quiet_emit. apply HP. exact I.
Qed.

Lemma quiet_set_relation (o : Instance) (n : string)
  (related : list Instance) :
  P (EvAttached n o related) ->
  quiet P (set_relation env o n related).
Proof.
  intros HP. unfold set_relation.
  repeat first [apply quiet_db_issue | apply quiet_emit; exact HP | quiet_step].
Qed.

Lemma quiet_handle_many_to_many_relations (model : Model) :
  (forall n o related, P (EvAttached n o related)) ->
  quiet P (handle_many_to_many_relations env model).
Proof.
  intros HP. unfold handle_many_to_many_relations, attach_related.
  repeat first [ apply quiet_random_randint | apply quiet_random_sample
               | apply quiet_set_relation; apply HP | quiet_step ].
Qed.

Lemma quiet_create_base_auth_models :
  (forall e, is_log e -> P e) -> quiet P (create_base_auth_models env).
Proof.
  intros HP. unfold create_base_auth_models, group_get_or_create,
    superuser_exists, create_superuser.
  repeat first [ apply quiet_db_issue | apply quiet_emit; apply HP; exact I
               | quiet_step ].
Qed.

End FrameOfCommand.

(** ** Bootstrap *)

Lemma mem_spec (x : string) (xs : list string) :
  PyStr.mem x xs = true <-> x ∈ xs.
Proof.
  unfold PyStr.mem. rewrite existsb_exists. split.
  - intros (y & Hy & He). apply String.eqb_eq in He. subst.
    apply list_elem_of_In. exact Hy.
  - intros H. exists x. split; [apply list_elem_of_In; exact H|].
    apply String.eqb_refl.
Qed.

Lemma groups_grow_refl (s s' : State) :
  db_groups s' = db_groups s -> groups_grow s s'.
Proof.
  intros H. exists []. rewrite app_nil_r. split; [done|].
  split; [constructor|]. intros g Hg. inversion Hg.
Qed.

Lemma groups_grow_trans (a b c : State) :
  groups_grow a b -> groups_grow b c -> groups_grow a c.
Proof.
  intros (x & Hx & Nx & Fx) (y & Hy & Ny & Fy).
  exists (x ++ y). rewrite Hy, Hx, app_assoc. split; [done|]. split.
  - apply NoDup_app. split; [done|]. split; [|done].
    intros g Hgx Hgy. destruct (Fy g Hgy) as [Hn _]. apply Hn.
    rewrite Hx. apply elem_of_app. auto.
  - intros g Hg. apply elem_of_app in Hg as [Hg|Hg]; [auto|].
    destruct (Fy g Hg) as [Hn Hb]. split; [|done].
    intros Ha. apply Hn. rewrite Hx. apply elem_of_app. auto.
Qed.

Lemma has_superuser_app (us vs : list User) :
  existsb is_superuser (us ++ vs) = true <->
  existsb is_superuser us = true \/ existsb is_superuser vs = true.
Proof. rewrite existsb_app. apply orb_true_iff. Qed.

Lemma users_grow_trans (a b c : State) :
  users_grow a b -> users_grow b c -> users_grow a c.
Proof.
  unfold users_grow, has_superuser.
  intros [H1 | (N1 & u & Hu & H1)] [H2 | (N2 & v & Hv & H2)].
  - left. congruence.
  - right. rewrite H1 in N2, H2. eauto.
  - right. rewrite H2. eauto.
  - exfalso. apply N2. rewrite H1. apply has_superuser_app. right. cbn.
    rewrite Hu. reflexivity.
Qed.

Section Bootstrap.

Variable env : Env.

Lemma group_get_or_create_cases (g : string) (s : State) :
  g ∈ base_groups ->
  db_users (group_get_or_create env g s).2 = db_users s /\
  trace (group_get_or_create env g s).2 = trace s /\
  groups_grow s (group_get_or_create env g s).2 /\
  ((group_get_or_create env g s).1 = Ok tt ->
   g ∈ db_groups (group_get_or_create env g s).2).
Proof.
  intros Hg. unfold group_get_or_create, db_issue. unfold_cmd. cbn.
  destruct (db_fault env (clock s) (OpGetOrCreateGroup g)); cbn.
  { repeat split; [apply groups_grow_refl; reflexivity | discriminate]. }
  destruct (PyStr.mem g (db_groups s)) eqn:E; cbn.
  - repeat split; [apply groups_grow_refl; reflexivity|].
    intros _. apply mem_spec. exact E.
  - repeat split.
    + exists [g]. split; [reflexivity|]. split; [apply NoDup_singleton|].
      intros x Hx. apply list_elem_of_singleton in Hx as ->. split; [|done].
      intros Hin. apply mem_spec in Hin. congruence.
    + intros _. apply elem_of_app. right. apply list_elem_of_singleton.
      reflexivity.
Qed.

Lemma ensure_groups (gs : list string) (s : State) :
  (forall g, g ∈ gs -> g ∈ base_groups) ->
  db_users (for_each gs (group_get_or_create env) s).2 = db_users s /\
  trace (for_each gs (group_get_or_create env) s).2 = trace s /\
  groups_grow s (for_each gs (group_get_or_create env) s).2 /\
  ((for_each gs (group_get_or_create env) s).1 = Ok tt ->
   forall g, g ∈ gs ->
             g ∈ db_groups (for_each gs (group_get_or_create env) s).2).
Proof.
  revert s. induction gs as [|g gs IH]; intros s Hgs; cbn [for_each].
  - cbn. repeat split; [apply groups_grow_refl; reflexivity|].
    intros _ g Hg. inversion Hg.
  - unfold bind.
    destruct (group_get_or_create_cases g s) as (U1 & T1 & G1 & M1);
      [apply Hgs; left|].
    destruct (group_get_or_create env g s) as [[[]|e] s1]; cbn in *.
    + destruct (IH s1) as (U2 & T2 & G2 & M2);
        [intros x Hx; apply Hgs; right; exact Hx|].
      split; [congruence|]. split; [congruence|].
      split; [eapply groups_grow_trans; eauto|].
      intros Hok x Hx. apply elem_of_cons in Hx as [->|Hx]; [|auto].
      destruct G2 as (added & -> & _). apply elem_of_app. left. auto.
    + repeat split; auto. discriminate.
Qed.

Lemma ensure_superuser (s : State) :
  let m := (found <~ superuser_exists env ;;
            if negb found
            then create_superuser env "admin" "admin@example.com"
            else ret tt) in
  db_groups (m s).2 = db_groups s /\
  trace (m s).2 = trace s /\
  users_grow s (m s).2 /\
  ((m s).1 = Ok tt -> has_superuser (m s).2).
Proof.
  unfold superuser_exists, create_superuser, db_issue, users_grow,
    has_superuser. unfold_cmd. cbn.
  destruct (db_fault env (clock s) OpSuperuserExists); cbn.
  { repeat split; auto. discriminate. }
  destruct (existsb is_superuser (db_users s)) eqn:E; cbn.
  { repeat split; auto. }
  destruct (db_fault env (S (clock s)) OpCreateSuperuser); cbn.
  { repeat split; auto. discriminate. }
  destruct (PyStr.mem "admin" (map username (db_users s))); cbn.
  { repeat split; auto. discriminate. }
  repeat split.
  - right. split; [congruence|]. eexists. split; [|reflexivity]. reflexivity.
  - intros _. rewrite existsb_app. cbn. apply orb_true_r.
Qed.

(** One run of the bootstrap step: it returns normally; a failure
    leaves one line in the log; groups and accounts only grow as
    [groups_grow] and [users_grow] allow, and after a run without
    failure the three groups and an administrative account exist. *)
Lemma create_base_auth_models_run (s : State) :
  let r := create_base_auth_models env s in
  r.1 = Ok tt /\
  (trace r.2 = trace s \/
   exists msg, trace r.2 = trace s ++ [EvLogError msg]) /\
  groups_grow s r.2 /\ users_grow s r.2 /\
  (trace r.2 = trace s ->
   (forall g, g ∈ base_groups -> g ∈ db_groups r.2) /\ has_superuser r.2).
Proof.
  assert (Hlonger : forall (t : list Event) e, t ++ [e] <> t).
  { intros t e Habs. apply (f_equal length) in Habs.
    rewrite length_app in Habs. cbn in Habs. lia. }
  assert (Hbody : exists o s',
    (for_each base_groups (group_get_or_create env);;;
     found <~ superuser_exists env;;
     (if negb found
      then create_superuser env "admin" "admin@example.com"
      else ret ())) s = (o, s') /\
    trace s' = trace s /\ groups_grow s s' /\ users_grow s s' /\
    (o = Ok tt ->
     (forall g, g ∈ base_groups -> g ∈ db_groups s') /\ has_superuser s')).
  { unfold bind at 1.
    destruct (ensure_groups base_groups s) as (U1 & T1 & G1 & M1); [auto|].
    destruct (for_each base_groups (group_get_or_create env) s)
      as [[[]|e] s1]; cbn [fst snd] in *.
    - destruct (ensure_superuser s1) as (G2 & T2 & U2 & M2).
      cbv zeta in G2, T2, U2, M2.
      destruct ((found <~ superuser_exists env;;
                 (if negb found
                  then create_superuser env "admin" "admin@example.com"
                  else ret ())) s1) as [o s2]; cbn [fst snd] in *.
      exists o, s2. split; [reflexivity|]. split; [congruence|].
      split; [destruct G1 as (a & ? & ? & ?); exists a; split;
                [congruence|auto]|].
      split.
      { destruct U2 as [U2|(N & u & Hu & U2)]; [left; congruence|].
        right. unfold has_superuser in *. rewrite U1 in N, U2. eauto. }
      intros Ho. split; [|auto]. intros g Hg. rewrite G2. auto.
    - exists (Raise e), s1. split; [reflexivity|]. split; [exact T1|].
      split; [exact G1|]. split; [left; exact U1|]. discriminate. }
  destruct Hbody as (o & s' & Hrun & T & G & U & Hok).
  unfold create_base_auth_models, try_except. rewrite Hrun.
  destruct o as [[]|e]; cbn.
  - split; [reflexivity|]. split; [left; exact T|]. auto.
  - split; [reflexivity|]. split; [right; rewrite T; eauto|].
    split; [exact G|]. split; [exact U|].
    rewrite T. intros Habs. exfalso. eapply Hlonger. exact Habs.
Qed.

End Bootstrap.

Lemma count_absent (g : string) (l : list string) :
  g ∉ l -> length (filter (fun x => x = g) l) = 0%nat.
Proof.
  induction l as [|x l IH]; intros Hn; [reflexivity|].
  apply not_elem_of_cons in Hn as [Hne Hn].
  rewrite filter_cons. destruct (decide (x = g)); [congruence|auto].
Qed.

Lemma count_nodup (g : string) (l : list string) :
  NoDup l -> (length (filter (fun x => x = g) l) <= 1)%nat.
Proof.
  induction 1 as [|x l Hx Hnd IH]; [cbn; lia|].
  rewrite filter_cons. destruct (decide (x = g)) as [->|]; [|exact IH].
  cbn. rewrite (count_absent g l Hx). lia.
Qed.

Lemma count_present (g : string) (l : list string) :
  g ∈ l -> (0 < length (filter (fun x => x = g) l))%nat.
Proof.
  intros Hg. assert (H : g ∈ filter (fun x => x = g) l)
    by (apply list_elem_of_filter; auto).
  destruct (filter (fun x => x = g) l); [inversion H|cbn; lia].
Qed.

Lemma groups_grow_count (s s' : State) (g : string) :
  groups_grow s s' ->
  (group_count g s' <= Nat.max 1 (group_count g s))%nat /\
  (g ∈ db_groups s -> group_count g s' = group_count g s).
Proof.
  intros (added & Hs & Hnd & Hnew). unfold group_count.
  rewrite Hs, filter_app, length_app.
  pose proof (count_nodup g added Hnd) as H1.
  destruct (decide (g ∈ added)) as [Hin|Hout].
  - destruct (Hnew g Hin) as [Hn _].
    rewrite (count_absent g _ Hn). split; [lia|done].
  - rewrite (count_absent g _ Hout). split; [lia|intros _; lia].
Qed.

Lemma groups_grow_complete (s s' : State) :
  groups_grow s s' ->
  (forall g, g ∈ base_groups -> g ∈ db_groups s) ->
  db_groups s' = db_groups s.
Proof.
  intros (added & Hs & _ & Hnew) Hall.
  destruct added as [|g added]; [rewrite Hs; apply app_nil_r|].
  destruct (Hnew g) as [Hn Hb]; [left|]. exfalso. auto.
Qed.

Lemma superuser_count_zero (us : list User) :
  existsb is_superuser us <> true ->
  filter (fun u => is_superuser u = true) us = [].
Proof.
  induction us as [|u us IH]; [reflexivity|]. cbn [existsb]. intros H.
  rewrite filter_cons.
  destruct (decide (is_superuser u = true)) as [E|E].
  - rewrite E in H. cbn in H. congruence.
  - apply IH. intros Hex. apply H. rewrite Hex. apply orb_true_r.
Qed.

Lemma users_grow_count (s s' : State) :
  users_grow s s' ->
  (superuser_count s' <= Nat.max 1 (superuser_count s))%nat /\
  (has_superuser s -> db_users s' = db_users s).
Proof.
  unfold superuser_count.
  intros [H|(N & u & Hu & H)]; rewrite H.
  - split; [lia|done].
  - split; [|done]. rewrite filter_app, length_app.
    rewrite (superuser_count_zero _ N).
    rewrite filter_cons. destruct (decide (is_superuser u = true)); cbn; lia.
Qed.

(** C10.  The bootstrap step returns normally in every state, and a
    failure inside it leaves one line in the log.  Run a second time, it
    creates no group that exists and no second administrative account:
    no run leaves more than one group of a name or more than one
    administrative account where there was at most one, and after a
    first run without failure the second changes neither groups nor
    accounts. *)
Theorem bootstrap_idempotent (env : Env) (s : State) :
  let first := create_base_auth_models env s in
  let second := create_base_auth_models env first.2 in
  first.1 = Ok tt /\ second.1 = Ok tt /\
  (trace first.2 = trace s \/
   exists msg, trace first.2 = trace s ++ [EvLogError msg]) /\
  (trace second.2 = trace first.2 \/
   exists msg, trace second.2 = trace first.2 ++ [EvLogError msg]) /\
  (forall g, (group_count g second.2 <= Nat.max 1 (group_count g s))%nat) /\
  (forall g, g ∈ db_groups first.2 ->
             group_count g second.2 = group_count g first.2) /\
  (superuser_count second.2 <= Nat.max 1 (superuser_count s))%nat /\
  (has_superuser first.2 -> db_users second.2 = db_users first.2) /\
  (trace first.2 = trace s ->
   db_groups second.2 = db_groups first.2 /\
   db_users second.2 = db_users first.2).
Proof.
  cbv zeta.
  destruct (create_base_auth_models_run env s) as (R1 & L1 & G1 & U1 & C1).
  destruct (create_base_auth_models_run env (create_base_auth_models env s).2)
    as (R2 & L2 & G2 & U2 & C2).
  cbv zeta in *.
  split; [exact R1|]. split; [exact R2|].
  split; [exact L1|]. split; [exact L2|].
  split; [intros g; apply (groups_grow_count _ _ g
                             (groups_grow_trans _ _ _ G1 G2))|].
  split; [intros g; apply (groups_grow_count _ _ g G2)|].
  split; [apply (users_grow_count _ _ (users_grow_trans _ _ _ U1 U2))|].
  split; [apply (users_grow_count _ _ U2)|].
  intros Hquiet. destruct (C1 Hquiet) as [Hg Hu]. split.
  - apply groups_grow_complete; assumption.
  - apply (users_grow_count _ _ U2). exact Hu.
Qed.

(** ** A run without [--exclude] *)

Lemma create_base_auth_models_keeps (env : Env) (s : State) :
  exists s', create_base_auth_models env s = (Ok tt, s') /\ keeps is_log s s'.
Proof.
  pose proof (quiet_create_base_auth_models env is_log (fun e H => H) s) as Hk.
  destruct (create_base_auth_models_run env s) as (Hr & _).
  destruct (create_base_auth_models env s) as [o s']. cbn in *. subst.
  eauto.
Qed.

(** C2.  Without [--exclude] the parser binds [exclude] to [None]; over
    a registry that is not empty the membership test of the
    comprehension raises, the handler at the end of [handle] catches it
    and reports the failure, and the run constructs and persists no
    instance: ledger, persisted instances and allocator are as before,
    and the trace grows only by what bootstrap logged and by the two
    lines of the report. *)
Theorem handle_without_exclude (env : Env) (s : State) :
  get_models env <> [] ->
  parse_options None !! "exclude" = Some ONone /\
  (handle env (parse_options None) s).1 = Ok tt /\
  created_objects (handle env (parse_options None) s).2 = created_objects s /\
  db_rows (handle env (parse_options None) s).2 = db_rows s /\
  next_id (handle env (parse_options None) s).2 = next_id s /\
  exists evs,
    Forall is_log evs /\
    trace (handle env (parse_options None) s).2
    = trace s ++ evs ++
      [EvLogError "Error generating dummy data: argument of type 'NoneType' is not iterable";
       EvStdout "Failed to generate dummy data: argument of type 'NoneType' is not iterable"].
Proof.
  intros Hne.
  assert (Hopt : parse_options None !! "exclude" = Some ONone)
    by apply lookup_singleton_eq.
  split; [exact Hopt|].
  destruct (create_base_auth_models_keeps env s)
    as (s1 & Hboot & Hc & Hr & Hn & evs & Ht & Hev).
  assert (Hrun : handle env (parse_options None) s
    = (Ok tt,
       set_trace (trace s1 ++
         [EvLogError "Error generating dummy data: argument of type 'NoneType' is not iterable";
          EvStdout "Failed to generate dummy data: argument of type 'NoneType' is not iterable"])
         s1)).
  { unfold handle. rewrite Hopt. unfold try_except, bind at 1.
    rewrite Hboot. destruct (get_models env) as [|m ms]; [done|].
    cbn [filter_models not_in]. unfold_cmd. cbn.
    rewrite <- (app_assoc (trace s1)). reflexivity. }
  rewrite Hrun. cbn.
  split; [reflexivity|]. split; [exact Hc|]. split; [exact Hr|].
  split; [exact Hn|].
  exists evs. split; [exact Hev|]. rewrite Ht, <- app_assoc. reflexivity.
Qed.

Lemma handle_without_exclude_witness :
  get_models (Sample.env [Sample.tag_model]) <> [] /\
  (handle (Sample.env [Sample.tag_model]) (parse_options None)
     Sample.start).1 = Ok tt /\
  db_rows (handle (Sample.env [Sample.tag_model]) (parse_options None)
             Sample.start).2 = db_rows Sample.start.
Proof.
  assert (Hne : get_models (Sample.env [Sample.tag_model]) <> [])
    by discriminate.
  split; [exact Hne|].
  split; apply (handle_without_exclude (Sample.env [Sample.tag_model])
                  Sample.start Hne).
Defined.

(** ** Instance generation, step by step *)

Lemma keeps_weaken (P Q : Event -> Prop) (s s' : State) :
  (forall e, P e -> Q e) -> keeps P s s' -> keeps Q s s'.
Proof.
  intros HPQ (H1 & H2 & H3 & evs & H4 & H5). repeat split; auto.
  exists evs. split; [done|]. eapply Forall_impl; eauto.
Qed.

Section Generation.

Variable env : Env.

Lemma quiet_assign_fields (P : Event -> Prop) (fs : list Field)
  (instance : Instance) :
  (forall e, is_log_or_query e -> P e) ->
  quiet P (assign_fields env fs instance).
Proof.
  intros HP. revert instance.
  induction fs as [|f fs IH]; intros instance; cbn [assign_fields].
  - apply quiet_ret.
  - destruct (PyStr.mem (name f) ["id"; "pk"]); [apply IH|].
    apply quiet_bind; [apply quiet_generate_field_value; exact HP|].
    intros v. apply IH.
Qed.

(** [create_model_instance] returns a new object of the model: its
    identity is the next one of the allocator. *)
Lemma create_model_instance_spec (model : Model) (s : State) :
  exists o s',
    create_model_instance env model s = (Ok o, s') /\
    inst_id o = next_id s /\
    inst_model o = qualified_name model /\
    created_objects s' = created_objects s /\
    db_rows s' = db_rows s /\
    next_id s' = S (next_id s) /\
    exists evs, trace s' = trace s ++ evs /\ Forall is_log_or_query evs.
Proof.
  unfold create_model_instance, bind, new_instance.
  match goal with |- context [assign_fields env ?fs ?i ?st] =>
    destruct (assign_fields_returns env fs i st) as (o & s' & Hrun & Hid & Hm);
    pose proof (quiet_assign_fields is_log_or_query fs i (fun e H => H) st)
      as (Hc & Hr & Hn & Hev)
  end.
  rewrite Hrun in *. cbn in *. exists o, s'. auto 10.
Qed.

(** [save] either returns, with the object persisted, or raises, with
    the store as it was. *)
Lemma save_cases (obj : Instance) (s : State) :
  created_objects (save env obj s).2 = created_objects s /\
  next_id (save env obj s).2 = next_id s /\
  (((save env obj s).1 = Ok tt /\
    db_rows (save env obj s).2 = db_rows s ++ [obj] /\
    trace (save env obj s).2 = trace s ++ [EvSaved obj]) \/
   ((exists e, (save env obj s).1 = Raise e) /\
    db_rows (save env obj s).2 = db_rows s /\
    trace (save env obj s).2 = trace s ++ [EvSaveFailed obj])).
Proof.
  unfold save, db_issue. unfold_cmd. cbn.
  destruct (db_fault env (clock s) (OpSave obj)); cbn; eauto 10.
Qed.

(** One turn of the loop of [generate_data_for_model]. *)
Lemma create_objects_turn (model : Model) (model_name : string) (i : nat)
  (created : list Instance) (s : State) :
  exists obj evs created' s',
    try_except
      (obj <~ create_model_instance env model ;;
       save env obj ;;;
       ret (created ++ [obj]))
      (fun e =>
         logger_error ("Error creating instance " +:+ pretty i
                       +:+ " of " +:+ model_name +:+ ": " +:+ str_exn e) ;;;
         ret created) s = (Ok created', s') /\
    inst_id obj = next_id s /\
    inst_model obj = qualified_name model /\
    Forall is_log_or_query evs /\
    created_objects s' = created_objects s /\
    next_id s' = S (next_id s) /\
    ((created' = created ++ [obj] /\
      db_rows s' = db_rows s ++ [obj] /\
      trace s' = trace s ++ evs ++ [EvSaved obj]) \/
     (created' = created /\
      db_rows s' = db_rows s /\
      exists msg,
        trace s' = trace s ++ evs ++ [EvSaveFailed obj; EvLogError msg])).
Proof.
  destruct (create_model_instance_spec model s)
    as (obj & s1 & Hnew & Hid & Hm & Hc & Hr & Hn & evs & Ht & Hev).
  destruct (save_cases obj s1) as (Sc & Sn & Hsave).
  exists obj, evs.
  unfold try_except, bind at 1. rewrite Hnew. unfold bind at 1.
  destruct (save env obj s1) as [o s2]; cbn [fst snd] in *.
  destruct Hsave as [(-> & Sr & St) | ([e ->] & Sr & St)].
  - exists (created ++ [obj]), s2. cbn.
    split; [reflexivity|]. do 3 (split; [assumption|]).
    split; [congruence|]. split; [congruence|]. left.
    split; [reflexivity|]. split; [congruence|].
    rewrite St, Ht, <- app_assoc. reflexivity.
  - unfold_cmd. cbn. eexists created, _.
    split; [reflexivity|]. do 3 (split; [assumption|]). cbn.
    split; [congruence|]. split; [congruence|]. right.
    split; [reflexivity|]. split; [congruence|].
    eexists. rewrite St, Ht, <- !app_assoc. reflexivity.
Qed.

End Generation.

(** ** The ledger invariant *)

Lemma between_events (e : Event) (t evs tl : list Event) :
  Forall is_log_or_query evs -> ~ is_log_or_query e ->
  e ∈ t ++ evs ++ tl -> e ∈ t \/ e ∈ tl.
Proof.
  intros Hev Hne Hin.
  apply elem_of_app in Hin as [Hin|Hin]; [auto|].
  apply elem_of_app in Hin as [Hin|Hin]; [|auto].
  exfalso. apply Hne. rewrite Forall_forall in Hev. auto.
Qed.

Lemma persisted_mono (s s' : State) (o : Instance) (evs : list Event)
  (rows : list Instance) :
  trace s' = trace s ++ evs -> db_rows s' = db_rows s ++ rows ->
  persisted s o -> persisted s' o.
Proof.
  intros Ht Hr [H1 H2]. split.
  - rewrite Ht. apply elem_of_app. auto.
  - rewrite Hr. apply elem_of_app. auto.
Qed.

Lemma ledger_sound_keeps (s s' : State) :
  keeps not_save s s' -> ledger_sound s -> ledger_sound s'.
Proof.
  intros (Hc & Hr & Hn & evs & Ht & Hev) [LP IA FA].
  assert (Hold : forall e, ~ not_save e -> e ∈ trace s' -> e ∈ trace s).
  { intros e Hne Hin. rewrite Ht in Hin.
    apply elem_of_app in Hin as [Hin|Hin]; [done|].
    exfalso. apply Hne. rewrite Forall_forall in Hev. auto. }
  split.
  - intros k objs o Hk Ho. rewrite Hc in Hk.
    apply (persisted_mono s s' o evs []); [done|by rewrite app_nil_r|eauto].
  - intros o [H|H]; rewrite Hn; apply IA; [left|right];
      (apply Hold; [cbn; tauto|exact H]).
  - intros o o' H1 H2. apply FA; (apply Hold; [cbn; tauto|assumption]).
Qed.

Lemma initial_state_sound groups users rows :
  ledger_sound (initial_state groups users rows).
Proof.
  split; cbn.
  - intros k objs o Hk. rewrite lookup_empty in Hk. discriminate.
  - intros o [H|H]; inversion H.
  - intros o o' H. inversion H.
Qed.

Section Ledger.

Variable env : Env.

(** A turn of the loop maintains the invariant, and keeps the local
    list among the persisted instances. *)
Lemma create_objects_sound (model : Model) (model_name : string)
  (indices : list nat) (created : list Instance) (s : State) :
  exists created' s',
    create_objects env model model_name indices created s
    = (Ok created', s') /\
    (exists evs, trace s' = trace s ++ evs /\
                 Forall (generation_event model) evs) /\
    (ledger_sound s -> (forall o, o ∈ created -> persisted s o) ->
     ledger_sound s' /\ forall o, o ∈ created' -> persisted s' o).
Proof.
  revert created s.
  induction indices as [|i indices IH]; intros created s;
    cbn [create_objects].
  { exists created, s. split; [reflexivity|]. split; [|auto].
    exists []. rewrite app_nil_r. auto. }
  destruct (create_objects_turn env model model_name i created s)
    as (obj & evs & c1 & s1 & Hturn & Hid & Hm & Hev & Hc & Hn & Hcase).
  unfold bind at 1. rewrite Hturn.
  destruct (IH c1 s1) as (c2 & s2 & Hrun & (evs2 & Ht2 & Hev2) & Hsound).
  exists c2, s2. split; [exact Hrun|].
  assert (Hgen : forall e, is_log_or_query e -> generation_event model e)
    by (intros []; cbn; tauto).
  assert (Hq : Forall (generation_event model) evs)
    by (eapply Forall_impl; eauto).
  split.
  { destruct Hcase as [(_ & _ & Ht) | (_ & _ & msg & Ht)];
      eexists; (split; [rewrite Ht2, Ht, <- !app_assoc; reflexivity|]);
      repeat (apply Forall_app; split); auto;
      repeat constructor; exact Hm. }
  intros [LP IA FA] Hcreated.
  destruct Hcase as [(-> & Hr & Ht) | (-> & Hr & msg & Ht)]; apply Hsound.
  - (* the save returned *)
    assert (HS : forall x, EvSaved x ∈ trace s1 ->
                           EvSaved x ∈ trace s \/ x = obj).
    { intros x H. rewrite Ht in H.
      apply between_events in H as [H|H]; [auto| |exact Hev|cbn; tauto].
      apply list_elem_of_singleton in H. injection H as ->. auto. }
    assert (HF : forall x, EvSaveFailed x ∈ trace s1 ->
                           EvSaveFailed x ∈ trace s).
    { intros x H. rewrite Ht in H.
      apply between_events in H as [H|H]; [auto| |exact Hev|cbn; tauto].
      apply list_elem_of_singleton in H. discriminate. }
    split.
    + intros k objs o Hk Ho. rewrite Hc in Hk.
      eapply persisted_mono; eauto.
    + intros o H. rewrite Hn. destruct H as [H|H].
      * apply HS in H as [H| ->]; [|lia].
        specialize (IA o (or_introl H)). lia.
      * apply HF in H. specialize (IA o (or_intror H)). lia.
    + intros o o' H1 H2. apply HF in H1.
      apply HS in H2 as [H2| ->]; [apply FA; assumption|].
      specialize (IA o (or_intror H1)). lia.
  - intros o Ho. apply elem_of_app in Ho as [Ho|Ho].
    + eapply persisted_mono; eauto.
    + apply list_elem_of_singleton in Ho as ->. split.
      * rewrite Ht, !app_assoc. apply elem_of_app. right.
        apply list_elem_of_singleton. reflexivity.
      * rewrite Hr. apply elem_of_app. right.
        apply list_elem_of_singleton. reflexivity.
  - (* the save raised *)
    assert (Hfail : forall e, e ∈ [EvSaveFailed obj; EvLogError msg] ->
              e = EvSaveFailed obj \/ e = EvLogError msg).
    { intros e He. apply elem_of_cons in He as [->|He]; [auto|].
      apply list_elem_of_singleton in He. auto. }
    assert (HS : forall x, EvSaved x ∈ trace s1 -> EvSaved x ∈ trace s).
    { intros x H. rewrite Ht in H.
      apply between_events in H as [H|H]; [auto| |exact Hev|cbn; tauto].
      apply Hfail in H as [H|H]; discriminate. }
    assert (HF : forall x, EvSaveFailed x ∈ trace s1 ->
                           EvSaveFailed x ∈ trace s \/ x = obj).
    { intros x H. rewrite Ht in H.
      apply between_events in H as [H|H]; [auto| |exact Hev|cbn; tauto].
      apply Hfail in H as [H|H]; [|discriminate].
      injection H as ->. auto. }
    split.
    + intros k objs o Hk Ho. rewrite Hc in Hk.
      eapply (persisted_mono s s1 o _ []); [exact Ht|by rewrite app_nil_r|].
      eauto.
    + intros o H. rewrite Hn. destruct H as [H|H].
      * apply HS in H. specialize (IA o (or_introl H)). lia.
      * apply HF in H as [H| ->]; [|lia].
        specialize (IA o (or_intror H)). lia.
    + intros o o' H1 H2. apply HS in H2.
      apply HF in H1 as [H1| ->]; [apply FA; assumption|].
      specialize (IA o' (or_introl H2)). lia.
  - intros o Ho.
    eapply (persisted_mono s s1 o _ []); [exact Ht|by rewrite app_nil_r|].
    auto.
Qed.

(** [generate_data_for_model] returns normally, emits events of the
    generation of its model only, and maintains the invariant. *)
Lemma generate_data_for_model_spec (model : Model) (s : State) :
  exists s',
    generate_data_for_model env model s = (Ok tt, s') /\
    (exists evs, trace s' = trace s ++ evs /\
                 Forall (generation_event model) evs) /\
    (ledger_sound s -> ledger_sound s').
Proof.
  unfold generate_data_for_model, try_except, bind at 1.
  unfold stdout_write, emit, modify at 1.
  set (s0 := set_trace _ s).
  assert (H0 : keeps not_save s s0).
  { repeat split. eexists. split; [reflexivity|]. repeat constructor. }
  destruct (abstract model).
  { cbn. eexists. split; [reflexivity|]. split.
    - eexists. split; [reflexivity|]. repeat constructor.
    - intros Hs. apply (ledger_sound_keeps _ _ H0) in Hs.
      destruct Hs as [LP IA FA]. split; auto. }
  destruct (create_objects_sound model (qualified_name model)
              (seq 0 instances_per_model) [] s0)
    as (created & s1 & Hrun & (evs & Ht & Hev) & Hsound).
  unfold bind at 1. rewrite Hrun. cbn.
  eexists. split; [reflexivity|]. split.
  - cbn. exists ([EvStdout ("Generating data for " +:+ qualified_name model
                            +:+ "...")] ++ evs).
    rewrite Ht, app_assoc. split; [reflexivity|].
    apply Forall_app. split; [repeat constructor|exact Hev].
  - intros Hs. apply (ledger_sound_keeps _ _ H0) in Hs.
    destruct (Hsound Hs) as [[LP IA FA] Hcreated];
      [intros o Ho; inversion Ho|].
    split; cbn; auto.
    intros k objs o Hk Ho.
    destruct (decide (qualified_name model = k)) as [<-|Hne].
    + rewrite lookup_insert_eq in Hk. injection Hk as <-.
      destruct (Hcreated o Ho). split; assumption.
    + rewrite lookup_insert_ne in Hk by exact Hne.
      destruct (LP k objs o Hk Ho). split; assumption.
Qed.

End Ledger.

(** ** The loop over the models *)

Section Invariants.

Variable I : State -> Prop.

Lemma preserves_bind {A B} (m : M A) (k : A -> M B) :
  preserves I m -> (forall a, preserves I (k a)) -> preserves I (bind m k).
Proof.
  intros Hm Hk s Hs. unfold bind. specialize (Hm s Hs).
  destruct (m s) as [[a|e] s1]; cbn in Hm; [|exact Hm].
  apply Hk. exact Hm.
Qed.

Lemma preserves_try_except {A} (m : M A) (h : Exn -> M A) :
  preserves I m -> (forall e, preserves I (h e)) ->
  preserves I (try_except m h).
Proof.
  intros Hm Hh s Hs. unfold try_except. specialize (Hm s Hs).
  destruct (m s) as [[a|e] s1]; cbn in Hm; [exact Hm|].
  apply Hh. exact Hm.
Qed.

End Invariants.

Lemma preserves_quiet {A} (P : Event -> Prop) (m : M A) :
  (forall e, P e -> not_save e) -> quiet P m -> preserves ledger_sound m.
Proof.
  intros HP Hq s Hs. eapply ledger_sound_keeps; [|exact Hs].
  eapply keeps_weaken; [exact HP|apply Hq].
Qed.

Section Loop.

Variable env : Env.

Lemma quiet_filter_models (P : Event -> Prop) (all_models : list Model)
  (excluded : OptionValue) :
  quiet P (filter_models all_models excluded).
Proof.
  induction all_models as [|m ms IH]; cbn [filter_models].
  - apply quiet_ret.
  - unfold not_in. repeat first [exact IH | quiet_step].
Qed.

(** The loop returns normally and maintains the ledger invariant. *)
Lemma process_models_spec (models : list Model) (s : State) :
  exists s',
    process_models env models s = (Ok tt, s') /\
    (ledger_sound s -> ledger_sound s').
Proof.
  unfold process_models. revert s.
  induction models as [|model models IH]; intros s; cbn [for_each].
  { exists s. split; [reflexivity|auto]. }
  assert (Hturn : exists s1,
    try_except
      (generate_data_for_model env model;;;
       handle_many_to_many_relations env model)
      (fun e => stdout_write ("Error processing " +:+ label model
                              +:+ ": " +:+ str_exn e)) s = (Ok tt, s1) /\
    (ledger_sound s -> ledger_sound s1)).
  { destruct (generate_data_for_model_spec env model s)
      as (s1 & Hgen & _ & Hs1).
    pose proof (quiet_handle_many_to_many_relations env not_save
                  model (fun _ _ _ => I) s1) as Hwire.
    unfold try_except, bind at 1. rewrite Hgen.
    destruct (handle_many_to_many_relations env model s1) as [[[]|e] s2];
      cbn [fst snd] in Hwire.
    - exists s2. split; [reflexivity|]. intros Hs.
      eapply ledger_sound_keeps; [exact Hwire|apply Hs1; exact Hs].
    - unfold stdout_write, emit, modify. cbn.
      eexists. split; [reflexivity|]. intros Hs.
      assert (Hs2 : ledger_sound s2)
        by (eapply ledger_sound_keeps; [exact Hwire|apply Hs1; exact Hs]).
      eapply ledger_sound_keeps; [|exact Hs2].
      repeat split. eexists. split; [reflexivity|]. repeat constructor. }
  destruct Hturn as (s1 & Hrun & Hs1).
  unfold bind at 1. rewrite Hrun.
  destruct (IH s1) as (s' & Hrest & Hs').
  exists s'. split; [exact Hrest|auto].
Qed.

Lemma handle_sound (options : gmap string OptionValue) :
  preserves ledger_sound (handle env options).
Proof.
  assert (Hany : forall e, not_save e -> not_save e) by auto.
  assert (Hlog : forall e, is_log e -> not_save e) by (intros []; cbn; tauto).
  unfold handle. apply preserves_try_except.
  - apply preserves_bind.
    { eapply preserves_quiet; [exact Hlog|].
      apply quiet_create_base_auth_models. auto. }
    intros _. apply preserves_bind.
    { eapply preserves_quiet; [exact Hany|]. apply quiet_filter_models. }
    intros models_to_process. apply preserves_bind.
    { intros s Hs.
      destruct (process_models_spec
                  (Orderer.sort_models_by_dependencies models_to_process) s)
        as (s' & Hrun & Hsound).
      rewrite Hrun. auto. }
    intros _. eapply preserves_quiet; [exact Hany|]. repeat quiet_step.
  - intros e. eapply preserves_quiet; [exact Hany|]. repeat quiet_step.
Qed.

End Loop.

(** C8.  At every point of a run the entries of the creation ledger hold
    only instances whose [save] returned and that the store holds; an
    object whose [save] raised is in no entry of the ledger. *)
Theorem ledger_holds_persisted_only (env : Env) (s : State) :
  run_state env s ->
  (forall k objs o,
     created_objects s !! k = Some objs -> o ∈ objs -> persisted s o) /\
  (forall k objs o failed,
     created_objects s !! k = Some objs -> o ∈ objs ->
     EvSaveFailed failed ∈ trace s -> inst_id failed <> inst_id o).
Proof.
  intros Hrun.
  assert (Hsound : ledger_sound s).
  { induction Hrun.
    - apply initial_state_sound.
    - destruct (create_base_auth_models_keeps env s) as (s' & -> & Hk).
      eapply ledger_sound_keeps; [|exact IHHrun].
      eapply keeps_weaken; [|exact Hk]. intros []; cbn; tauto.
    - destruct (generate_data_for_model_spec env model s) as (s' & -> & _ & H).
      auto.
    - eapply ledger_sound_keeps; [|exact IHHrun].
      apply (quiet_handle_many_to_many_relations env not_save model
               (fun _ _ _ => I)).
    - destruct (process_models_spec env models s) as (s' & -> & H). auto.
    - apply handle_sound. exact IHHrun. }
  destruct Hsound as [LP IA FA]. split; [exact LP|].
  intros k objs o failed Hk Ho Hf.
  apply FA; [exact Hf|]. apply (LP k objs o Hk Ho).
Qed.

Lemma ledger_holds_persisted_only_witness :
  let s := (handle (Sample.flaky_env Sample.three_models)
              (parse_options (Some [])) Sample.start).2 in
  run_state (Sample.flaky_env Sample.three_models) s /\
  forall k objs o,
    created_objects s !! k = Some objs -> o ∈ objs -> persisted s o.
Proof.
  cbv zeta.
  assert (Hrun : run_state (Sample.flaky_env Sample.three_models)
            (handle (Sample.flaky_env Sample.three_models)
               (parse_options (Some [])) Sample.start).2)
    by (apply run_handle, run_start).
  split; [exact Hrun|].
  apply (ledger_holds_persisted_only _ _ Hrun).
Defined.

(** With the backend that refuses every other save, the ledger entry of
    a model holds the 50 instances that were persisted. *)
Example flaky_run_ledger :
  let s := (handle (Sample.flaky_env [Sample.tag_model])
              (parse_options (Some [])) Sample.start).2 in
  length <$> (created_objects s !! "crm.tag") = Some 50%nat /\
  length (db_rows s) = 50%nat.
Proof. vm_compute. split; reflexivity. Qed.

(** ** Dependency ordering *)

Section Walks.

Context {A : Type} `{EqDecision A}.
Variable R : A -> A -> Prop.

Lemma walk_tc (x y : A) (q : list A) : walk R x (q ++ [y]) -> tc R x y.
Proof.
  revert x. induction q as [|z q IH]; intros x; cbn.
  - intros [H _]. apply tc_once. exact H.
  - intros [H Hq]. eapply tc_l; [exact H|]. apply IH. exact Hq.
Qed.

Lemma walk_split (x y : A) (p q : list A) :
  walk R x (p ++ y :: q) -> walk R x (p ++ [y]) /\ walk R y q.
Proof.
  revert x. induction p as [|z p IH]; intros x; cbn.
  - intros [H Hq]. auto.
  - intros [H Hp]. destruct (IH z Hp). auto.
Qed.

(** Inside a list where every element has a successor, walks of every
    length start at every element. *)
Lemma walk_exists (l : list A) :
  (forall x, x ∈ l -> exists y, y ∈ l /\ R x y) ->
  forall n x, x ∈ l ->
    exists p, length p = n /\ walk R x p /\ forall y, y ∈ p -> y ∈ l.
Proof.
  intros Hsucc. induction n as [|n IH]; intros x Hx.
  - exists []. repeat split. intros y Hy. inversion Hy.
  - destruct (Hsucc x Hx) as (y & Hy & Hxy).
    destruct (IH y Hy) as (p & Hlen & Hw & Hin).
    exists (y :: p). cbn. repeat split; auto.
    intros z Hz. apply elem_of_cons in Hz as [->|Hz]; auto.
Qed.

(** A finite set in which every element has a successor has a cycle. *)
Lemma no_sink_cycle (l : list A) :
  l <> [] ->
  (forall x, x ∈ l -> exists y, y ∈ l /\ R x y) ->
  exists x, tc R x x.
Proof.
  intros Hne Hsucc.
  destruct l as [|x0 l0] eqn:El; [done|]. rewrite <- El in *.
  assert (Hx0 : x0 ∈ l) by (rewrite El; left).
  destruct (walk_exists l Hsucc (length l) x0 Hx0) as (p & Hlen & Hw & Hin).
  assert (Hdup : ~ NoDup (x0 :: p)).
  { intros Hnd.
    assert (Hle : (length (x0 :: p) <= length l)%nat).
    { apply submseteq_length, NoDup_submseteq; [exact Hnd|].
      intros y Hy. apply elem_of_cons in Hy as [->|Hy]; auto. }
    cbn in Hle. lia. }
  rewrite NoDup_ListNoDup in Hdup.
  apply not_NoDup in Hdup as (a & l1 & l2 & l3 & Heq);
    [|intros u v; destruct (decide (u = v)); [left|right]; assumption].
  exists a. apply (walk_tc a a l2).
  destruct l1 as [|z l1]; cbn in Heq; injection Heq as -> ->.
  - apply (walk_split _ _ _ _ Hw).
  - apply walk_split in Hw as [_ Hw]. apply (walk_split _ _ _ _ Hw).
Qed.

End Walks.

Module OrdererFacts.
Import Orderer.

Lemma pick_some (ok : Model -> bool) (pending : list Model) (m : Model)
  (rest : list Model) :
  pick ok pending = Some (m, rest) ->
  ok m = true /\ Permutation pending (m :: rest).
Proof.
  revert m rest. induction pending as [|x pending IH]; intros m rest; cbn.
  - discriminate.
  - destruct (ok x) eqn:Hx.
    + intros [= <- <-]. auto.
    + destruct (pick ok pending) as [[y rest']|]; [|discriminate].
      intros [= <- <-]. destruct (IH y rest' eq_refl) as [Hy Hp].
      split; [exact Hy|].
      rewrite Hp. apply perm_swap.
Qed.

Lemma pick_none (ok : Model -> bool) (pending : list Model) :
  pick ok pending = None -> forall m, m ∈ pending -> ok m = false.
Proof.
  induction pending as [|x pending IH]; cbn; intros Hp m Hm.
  - inversion Hm.
  - destruct (ok x) eqn:Hx; [discriminate|].
    destruct (pick ok pending) as [[y rest']|]; [discriminate|].
    apply elem_of_cons in Hm as [->|Hm]; auto.
Qed.

Lemma targets_first_snoc (ms placed : list Model) (m : Model) :
  targets_first ms placed ->
  (forall r, r ∈ required_targets m -> r ∈ names ms -> r ∈ names placed) ->
  targets_first ms (placed ++ [m]).
Proof.
  intros Hplaced Hm before x after Heq r Hr Hin.
  destruct after as [|z after _] using rev_ind.
  - apply app_inj_tail in Heq as [-> ->]. auto.
  - rewrite app_comm_cons, app_assoc in Heq.
    apply app_inj_tail in Heq as [Heq _].
    eapply Hplaced; eauto.
Qed.

Lemma names_app (l k : list Model) : names (l ++ k) = names l ++ names k.
Proof. apply map_app. Qed.

Lemma in_names (ms : list Model) (r : string) :
  r ∈ names ms <-> exists m, m ∈ ms /\ qualified_name m = r.
Proof.
  unfold names. rewrite list_elem_of_fmap. split.
  - intros (m & -> & Hm). eauto.
  - intros (m & Hm & <-). eauto.
Qed.

Lemma forallb_false {B} (f : B -> bool) (l : list B) :
  forallb f l = false -> exists x, x ∈ l /\ f x = false.
Proof.
  induction l as [|x l IH]; cbn; [discriminate|].
  destruct (f x) eqn:Hx; cbn.
  - intros H. destruct (IH H) as (y & Hy & Hf). exists y.
    split; [right; exact Hy|exact Hf].
  - intros _. exists x. split; [left|exact Hx].
Qed.

(** A pending model that is not ready requires a model that is still
    pending. *)
Lemma unready_requires_pending (ms placed pending : list Model)
  (m : Model) :
  Permutation ms (placed ++ pending) ->
  m ∈ pending -> ready ms placed m = false ->
  exists r, r ∈ names pending /\ requires ms (qualified_name m) r.
Proof.
  intros Hperm Hm Hready. unfold ready in Hready.
  apply forallb_false in Hready as (r & Hr & Hnot).
  apply list_elem_of_filter in Hr as [Hdep Hr].
  apply andb_prop_elim in Hdep as [Hset _].
  apply Is_true_true, mem_spec in Hset.
  assert (Hplaced : r ∉ names placed).
  { intros Hin. apply mem_spec in Hin. congruence. }
  exists r. split.
  - assert (Hin : r ∈ names (placed ++ pending)).
    { unfold names in *. rewrite <- Hperm. exact Hset. }
    rewrite names_app in Hin. apply elem_of_app in Hin as [Hin|Hin];
      [done|exact Hin].
  - exists m. repeat split; auto.
    rewrite Hperm. apply elem_of_app. auto.
Qed.

Lemma traverse_spec (ms : list Model) :
  acyclic ms ->
  forall fuel pending placed,
    (length pending <= fuel)%nat ->
    Permutation ms (placed ++ pending) ->
    targets_first ms placed ->
    Permutation ms (traverse fuel ms pending placed) /\
    targets_first ms (traverse fuel ms pending placed).
Proof.
  intros Hacyclic.
  induction fuel as [|fuel IH]; intros pending placed Hlen Hperm Hplaced.
  { destruct pending; [|cbn in Hlen; lia]. cbn.
    rewrite app_nil_r in *. auto. }
  cbn [traverse]. destruct (pick (ready ms placed) pending)
    as [[m pending']|] eqn:Hpick.
  - apply pick_some in Hpick as [Hready Hp].
    assert (Hm : m ∈ ms).
    { rewrite Hperm, Hp. apply elem_of_app. right. left. }
    apply IH.
    + apply Permutation_length in Hp. cbn in Hp. lia.
    + rewrite Hperm, Hp, <- app_assoc. reflexivity.
    + apply targets_first_snoc; [exact Hplaced|].
      intros r Hr Hin.
      destruct (String.eqb_spec r (qualified_name m)) as [->|Hne].
      { exfalso. apply (Hacyclic (qualified_name m)). apply tc_once.
        exists m. auto. }
      unfold ready in Hready. rewrite forallb_forall in Hready.
      apply mem_spec, Hready, list_elem_of_In, list_elem_of_filter.
      split; [|exact Hr].
      apply andb_prop_intro. split; apply Is_true_true.
      * apply mem_spec. exact Hin.
      * apply negb_true_iff, String.eqb_neq. exact Hne.
  - destruct pending as [|m0 pending0] eqn:Ep.
    { rewrite app_nil_r in *. auto. }
    rewrite <- Ep in *. exfalso.
    destruct (no_sink_cycle (requires ms) (names pending)) as [x Hx].
    + rewrite Ep. discriminate.
    + intros x Hx. apply in_names in Hx as (m & Hm & <-).
      eapply unready_requires_pending; eauto.
      eapply pick_none; eauto.
    + exact (Hacyclic x Hx).
Qed.

End OrdererFacts.

(** C1.  For a set of models without cycles of required relationships,
    the ordering puts the models of the set in a sequence (a permutation
    of the set) in which every required target that is in the set comes
    before the model that refers to it. *)
Theorem sort_models_by_dependencies_sound (ms : list Model) :
  Orderer.acyclic ms ->
  Permutation ms (Orderer.sort_models_by_dependencies ms) /\
  forall before m after,
    Orderer.sort_models_by_dependencies ms = before ++ m :: after ->
    forall r, r ∈ Orderer.required_targets m -> r ∈ Orderer.names ms ->
              r ∈ Orderer.names before.
Proof.
  intros Hacyclic. unfold Orderer.sort_models_by_dependencies.
  apply (OrdererFacts.traverse_spec ms Hacyclic (length ms) ms []).
  - lia.
  - reflexivity.
  - intros before m after Heq. destruct before; discriminate.
Qed.

Lemma acyclic_by_rank (ms : list Model) (rank : string -> nat) :
  (forall a b, Orderer.requires ms a b -> (rank b < rank a)%nat) ->
  Orderer.acyclic ms.
Proof.
  intros Hrank x Hx.
  assert (H : forall a b, tc (Orderer.requires ms) a b -> (rank b < rank a)%nat).
  { induction 1 as [a b Hab|a b c Hab _ IH].
    - auto.
    - specialize (Hrank a b Hab). lia. }
  specialize (H x x Hx). lia.
Qed.

Lemma sample_registry_acyclic : Orderer.acyclic Sample.registry.
Proof.
  apply (acyclic_by_rank _
           (fun n => if String.eqb n "crm.deal" then 1%nat else 0%nat)).
  intros a b (m & Hm & <- & Hb & _).
  unfold Sample.registry in Hm.
  repeat (apply elem_of_cons in Hm as [->|Hm]);
    [| | |inversion Hm]; cbn in Hb.
  - apply list_elem_of_singleton in Hb as ->. vm_compute. lia.
  - inversion Hb.
  - inversion Hb.
Qed.

Lemma sort_models_by_dependencies_sound_witness :
  Orderer.acyclic Sample.registry /\
  Permutation Sample.registry
    (Orderer.sort_models_by_dependencies Sample.registry).
Proof.
  split; [exact sample_registry_acyclic|].
  apply (sort_models_by_dependencies_sound Sample.registry
           sample_registry_acyclic).
Defined.

(** The sample registry, ordered: [tag] is moved before [deal]. *)
Example sample_registry_sorted :
  map qualified_name (Orderer.sort_models_by_dependencies Sample.registry)
  = ["crm.host"; "crm.tag"; "crm.deal"].
Proof. reflexivity. Qed.

(** * Further properties of the command *)




Ltac eval_isinstance Hc :=
  rewrite ?(isinstance_of_class _ _ _ Hc);
  repeat match goal with |- context [bool_decide (?c ∈ mro ?k)] =>
    let b := eval vm_compute in (bool_decide (c ∈ mro k)) in
    change (bool_decide (c ∈ mro k)) with b end;
  cbn [orb andb].

Ltac split_tests :=
  repeat match goal with
  | |- context [match ?x with _ => _ end] =>
      lazymatch x with
      | context [match _ with _ => _ end] => fail
      | _ => destruct x eqn:?
      end
  end.

Lemma generate_field_value_kind (env : Env) (f : Field) (s : State) :
  exists v, (generate_field_value env f s).1 = Ok v /\
            (v = VNone \/ kind_of v = stored_kind (f_class f)).
Proof.
  unfold generate_field_value.
  destruct (f_class f) eqn:Hc; eval_isinstance Hc;
    unfold faker_email, faker_phone_number, faker_name, faker_text,
      faker_date_time_this_decade, faker_date_this_decade, faker_boolean,
      faker_random_int, faker_url, faker_pydecimal, timezone_now,
      random_randint, random_choice, random_first, db_issue;
    unfold_cmd; cbn; split_tests; cbn; eauto.
Qed.

(** X1.  Whatever the field, the synthesizer returns normally, and the
    value is [None] or of the kind a field of that class stores: text
    for the text classes, a timestamp for a [DateTimeField] (never a
    plain date), a date for a [DateField], and so on; a field of an
    unrecognized class gets [None]. *)
Theorem synthesized_value_kind (env : Env) (f : Field) (s : State) :
  exists v, (generate_field_value env f s).1 = Ok v /\
            (v = VNone \/ kind_of v = stored_kind (f_class f)).
Proof. apply generate_field_value_kind. Qed.

Lemma length_substring_le (n : nat) (s : string) :
  (String.length (substring 0 n s) <= n)%nat.
Proof.
  revert s. induction n as [|n IH]; intros [|c s]; cbn; try lia.
  specialize (IH s). lia.
Qed.

Lemma slice_to_length (n : Z) (s : string) :
  0 <= n -> Z.of_nat (String.length (PyStr.slice_to n s)) <= n.
Proof.
  intros Hn. unfold PyStr.slice_to.
  destruct (n <? 0) eqn:E; [lia|].
  pose proof (length_substring_le
                (Z.to_nat (Z.min n (Z.of_nat (String.length s)))) s).
  lia.
Qed.

(** X2.  A short-text value other than an email address and the
    literal of [language_code] fits the declared maximum length, or 100
    when none is declared: the synthesizer returns [None] or a string
    of at most that many characters. *)
Theorem short_text_fits_max_length (env : Env) (f : Field) (s : State) :
  isinstance f CharField = true ->
  PyStr.endswith (PyStr.lower (name f)) "email" = false ->
  PyStr.lower (name f) <> "language_code" ->
  0 <= max_length_or f 100 ->
  (generate_field_value env f s).1 = Ok VNone \/
  exists v, (generate_field_value env f s).1 = Ok (VStr v) /\
            Z.of_nat (String.length v) <= max_length_or f 100.
Proof.
  intros Hc Hemail Hlang Hmax.
  apply String.eqb_neq in Hlang.
  unfold generate_field_value. rewrite Hc, Hemail, Hlang.
  unfold faker_phone_number, faker_name, faker_text. unfold_cmd.
  split_tests; cbn; auto; right; eexists; (split; [reflexivity|]);
    apply slice_to_length; exact Hmax.
Qed.

Lemma short_text_fits_max_length_witness :
  isinstance Cases.phone_field CharField = true /\
  PyStr.endswith (PyStr.lower (name Cases.phone_field)) "email" = false /\
  PyStr.lower (name Cases.phone_field) <> "language_code" /\
  0 <= max_length_or Cases.phone_field 100 /\
  ((generate_field_value (Sample.env []) Cases.phone_field Sample.start).1 = Ok VNone \/
   exists v, (generate_field_value (Sample.env []) Cases.phone_field Sample.start).1
             = Ok (VStr v) /\
             Z.of_nat (String.length v) <= max_length_or Cases.phone_field 100).
Proof.
  assert (H3 : PyStr.lower (name Cases.phone_field) <> "language_code") by discriminate.
  assert (H4 : 0 <= max_length_or Cases.phone_field 100) by (vm_compute; discriminate).
  split; [reflexivity|]. split; [reflexivity|]. split; [exact H3|].
  split; [exact H4|].
  apply (short_text_fits_max_length (Sample.env []) Cases.phone_field Sample.start
           eq_refl eq_refl H3 H4).
Defined.

Example phone_is_truncated :
  (generate_field_value (Sample.env []) Cases.phone_field Sample.start).1
  = Ok (VStr "001-555-0100").
Proof. reflexivity. Qed.

(** X3.  A short-text field left to the sentence generator whose
    maximum length is below 5 gets [None]: [faker.text] refuses, the
    exception is logged once, and nothing else changes. *)
Theorem short_text_below_five_gets_none (env : Env) (f : Field) (s : State) :
  isinstance f CharField = true ->
  PyStr.endswith (PyStr.lower (name f)) "email" = false ->
  PyStr.endswith (PyStr.lower (name f)) "phone" = false ->
  PyStr.endswith (PyStr.lower (name f)) "name" = false ->
  PyStr.lower (name f) <> "language_code" ->
  max_length_or f 100 < 5 ->
  generate_field_value env f s
  = (Ok VNone,
     set_trace
       (trace s ++
        [EvLogError ("Error generating value for field " +:+ name f +:+
                     ": text() can only generate text of at least 5 characters")])
       s).
Proof.
  intros Hc H1 H2 H3 Hlang Hmax.
  apply String.eqb_neq in Hlang. apply Z.ltb_lt in Hmax.
  unfold generate_field_value. rewrite Hc, H1, H2, H3, Hlang.
  unfold faker_text. rewrite Hmax. reflexivity.
Qed.

Lemma short_text_below_five_gets_none_witness :
  isinstance Cases.code_field CharField = true /\
  max_length_or Cases.code_field 100 < 5 /\
  (generate_field_value (Sample.env []) Cases.code_field Sample.start).1 = Ok VNone.
Proof.
  assert (H5 : PyStr.lower (name Cases.code_field) <> "language_code") by discriminate.
  assert (H6 : max_length_or Cases.code_field 100 < 5) by (vm_compute; reflexivity).
  split; [reflexivity|]. split; [exact H6|].
  rewrite (short_text_below_five_gets_none (Sample.env []) Cases.code_field
             Sample.start eq_refl eq_refl eq_refl eq_refl H5 H6).
  reflexivity.
Defined.

(** X4.  A field whose class derives from [CharField] ([EmailField],
    [URLField], [SlugField]) is synthesized exactly as a [CharField] of
    the same name and length: the tests for [URLField] and [EmailField]
    that come later in the chain never decide. *)
Theorem char_subclass_treated_as_char_field (env : Env) (f : Field)
  (s : State) :
  isinstance f CharField = true ->
  generate_field_value env f s = generate_field_value env (as_char_field f) s.
Proof.
  intros Hc. unfold generate_field_value.
  rewrite Hc.
  change (isinstance (as_char_field f) CharField) with true.
  reflexivity.
Qed.

Lemma char_subclass_treated_as_char_field_witness :
  isinstance Cases.website_field CharField = true /\
  generate_field_value (Sample.env []) Cases.website_field Sample.start
  = generate_field_value (Sample.env []) (as_char_field Cases.website_field)
      Sample.start.
Proof.
  split; [reflexivity|].
  apply (char_subclass_treated_as_char_field (Sample.env []) Cases.website_field
           Sample.start eq_refl).
Defined.

Example url_field_gets_text :
  (generate_field_value (Sample.env []) Cases.website_field Sample.start).1
  = Ok (VStr "Lorem ipsum dolor sit amet consectetur.").
Proof. reflexivity. Qed.

Lemma integer_classes (f : Field) :
  isinstance f IntegerField = true ->
  isinstance f CharField = false /\ isinstance f TextField = false /\
  isinstance f DateTimeField = false /\ isinstance f DateField = false /\
  isinstance f BooleanField = false.
Proof.
  unfold isinstance. destruct (f_class f); vm_compute; intros H;
    try discriminate; auto.
Qed.

(** X5.  An integer field (of [IntegerField] or a class derived from
    it) gets an integer between 0 and 1000, and between 1 and 100 when
    it is named [index_number]. *)
Theorem integer_field_range (env : Env) (f : Field) (s : State) :
  isinstance f IntegerField = true ->
  exists z, (generate_field_value env f s).1 = Ok (VInt z) /\
            if String.eqb (name f) "index_number"
            then 1 <= z <= 100 else 0 <= z <= 1000.
Proof.
  intros Hint. destruct (integer_classes f Hint) as (H1 & H2 & H3 & H4 & H5).
  unfold generate_field_value. rewrite H1, H2, H3, H4, H5, Hint. cbn [orb].
  unfold faker_random_int, random_randint. unfold_cmd.
  destruct (String.eqb (name f) "index_number"); cbn;
    eexists; (split; [reflexivity|]).
  - pose proof (Z.mod_pos_bound (Z.of_nat (rand env (clock s))) 100 eq_refl).
    change (100 - 1 + 1) with 100. lia.
  - pose proof (Z.mod_pos_bound (Z.of_nat (rand env (clock s))) 1001 eq_refl).
    change (1000 - 0 + 1) with 1001. lia.
Qed.

Lemma integer_field_range_witness :
  isinstance Cases.age_field IntegerField = true /\
  exists z, (generate_field_value (Sample.env []) Cases.age_field Sample.start).1
            = Ok (VInt z) /\ 0 <= z <= 1000.
Proof.
  split; [reflexivity|].
  apply (integer_field_range (Sample.env []) Cases.age_field Sample.start eq_refl).
Defined.

(** X6.  A decimal field whose precision is missing or inconsistent
    (no [max_digits], no [decimal_places], more decimal places than
    digits, negative decimal places, or zero digits in all) gets
    [None]: the exception is logged once, and nothing else changes. *)
Theorem decimal_field_bad_precision (env : Env) (f : Field) (s : State) :
  f_class f = DecimalField ->
  (max_digits f = None \/ decimal_places f = None \/
   exists md dp, max_digits f = Some md /\ decimal_places f = Some dp /\
                 (md < dp \/ dp < 0 \/ (md = 0 /\ dp = 0))) ->
  exists msg,
    generate_field_value env f s
    = (Ok VNone, set_trace (trace s ++ [EvLogError msg]) s).
Proof.
  intros Hc Hbad. unfold generate_field_value. eval_isinstance Hc.
  unfold faker_pydecimal.
  destruct Hbad as [-> | [Hdp | (md & dp & -> & -> & Hcase)]].
  - eexists. reflexivity.
  - rewrite Hdp. destruct (max_digits f); eexists; reflexivity.
  - destruct (md - dp <? 0) eqn:E1; [eexists; reflexivity|].
    destruct (dp <? 0) eqn:E2; [eexists; reflexivity|].
    destruct ((md - dp =? 0) && (dp =? 0)) eqn:E3; [eexists; reflexivity|].
    exfalso. apply andb_false_iff in E3. lia.
Qed.

Lemma decimal_field_bad_precision_witness :
  f_class Cases.broken_price_field = DecimalField /\
  exists msg,
    generate_field_value (Sample.env []) Cases.broken_price_field Sample.start
    = (Ok VNone, set_trace (trace Sample.start ++ [EvLogError msg]) Sample.start).
Proof.
  split; [reflexivity|].
  apply (decimal_field_bad_precision (Sample.env []) Cases.broken_price_field
           Sample.start eq_refl).
  right. right. exists 2, 4. repeat split. left. lia.
Defined.

(** X7.  The synthesizer never raises, and it leaves the ledger, the
    persisted instances and the allocator as they are: all it adds to
    the trace are log lines and queries. *)
Theorem synthesizer_is_contained (env : Env) (f : Field) (s : State) :
  (exists v, (generate_field_value env f s).1 = Ok v) /\
  keeps is_log_or_query s (generate_field_value env f s).2.
Proof.
  split.
  - destruct (generate_field_value_returns env f s) as (v & s' & ->). eauto.
  - apply quiet_generate_field_value. auto.
Qed.

Lemma foreign_key_tests (f : Field) :
  isinstance f ForeignKey = true ->
  isinstance f CharField = false /\ isinstance f TextField = false /\
  isinstance f DateTimeField = false /\ isinstance f DateField = false /\
  isinstance f BooleanField = false /\ isinstance f IntegerField = false /\
  isinstance f SmallIntegerField = false /\
  isinstance f DecimalField = false /\ isinstance f URLField = false.
Proof.
  unfold isinstance. destruct (f_class f); vm_compute; intros H;
    try discriminate; auto 10.
Qed.

(** Every stored instance of a model is of that model. *)
Lemma stored_refs_model (model : string) (s : State) (ref : string * nat) :
  ref ∈ stored_refs model s -> ref.1 = model.
Proof.
  unfold stored_refs. intros [H|H]%elem_of_app.
  - destruct (String.eqb_spec model "auth.user") as [->|_].
    { apply elem_of_lookup_imap_1 in H as (i & y & -> & _). reflexivity. }
    destruct (String.eqb_spec model "auth.group") as [->|_].
    { apply elem_of_lookup_imap_1 in H as (i & y & -> & _). reflexivity. }
    inversion H.
  - apply list_elem_of_In, in_map_iff in H as (o & <- & Ho).
    apply list_elem_of_In, list_elem_of_filter in Ho as [Hm _]. exact Hm.
Qed.

(** X8.  With no instance of the target in the ledger but some in the
    store (persisted rows of the target; for [auth.user] and
    [auth.group] also the accounts and the groups), the resolver
    queries the store: it answers a stored instance of the target
    model, or [None] when the query raises, and in both cases the
    failure is not logged. *)
Theorem resolver_falls_back_to_store (env : Env) (f : Field) (r : ModelRef)
  (s : State) :
  isinstance f ForeignKey = true ->
  remote_field f = Some r ->
  dict_get (created_objects s) (ref_name r) = [] ->
  stored_refs (ref_name r) s <> [] ->
  trace (generate_field_value env f s).2 = trace s ++ [EvQuery (ref_name r)] /\
  (db_fault env (clock s) (OpRandomFirst (ref_name r)) = None ->
   exists ref, ref ∈ stored_refs (ref_name r) s /\ ref.1 = ref_name r /\
               (generate_field_value env f s).1 = Ok (VObj ref.1 ref.2)) /\
  (db_fault env (clock s) (OpRandomFirst (ref_name r)) <> None ->
   (generate_field_value env f s).1 = Ok VNone).
Proof.
  intros Hfk Hr Hledger Hrows.
  destruct (foreign_key_tests f Hfk)
    as (H1 & H2 & H3 & H4 & H5 & H6 & H7 & H8 & H9).
  unfold generate_field_value.
  rewrite H1, H2, H3, H4, H5, H6, H7, H8, H9, Hfk, Hr. cbn [orb].
  unfold_cmd. rewrite Hledger. unfold random_first, db_issue. unfold_cmd.
  cbn -[stored_refs random_choice].
  destruct (db_fault env (clock s) (OpRandomFirst (ref_name r))) as [e|];
    cbn -[stored_refs random_choice].
  { split; [reflexivity|]. split; [discriminate|reflexivity]. }
  rewrite (stored_refs_ext _ s) by reflexivity.
  destruct (stored_refs (ref_name r) s) as [|r0 rest] eqn:E; [done|].
  match goal with |- context [random_choice env ?xs ?st] =>
    destruct (random_choice_member env xs st) as (ref & Href & Hpick);
      [discriminate|]
  end.
  rewrite Hpick. cbn. split; [reflexivity|]. split; [|congruence].
  intros _. exists ref. split; [exact Href|]. split; [|reflexivity].
  apply (stored_refs_model (ref_name r) s). rewrite E. exact Href.
Qed.

Lemma resolver_falls_back_to_store_witness :
  let s := (create_base_auth_models (Sample.env []) Sample.start).2 in
  isinstance Cases.owner_field ForeignKey = true /\
  remote_field Cases.owner_field = Some Cases.user_ref /\
  dict_get (created_objects s) (ref_name Cases.user_ref) = [] /\
  stored_refs (ref_name Cases.user_ref) s <> [] /\
  trace (generate_field_value (Sample.env []) Cases.owner_field s).2
  = trace s ++ [EvQuery (ref_name Cases.user_ref)] /\
  exists ref, ref ∈ stored_refs (ref_name Cases.user_ref) s /\
              ref.1 = ref_name Cases.user_ref /\
              (generate_field_value (Sample.env []) Cases.owner_field s).1
              = Ok (VObj ref.1 ref.2).
Proof.
  cbv zeta.
  assert (Hrows : stored_refs (ref_name Cases.user_ref)
                    (create_base_auth_models (Sample.env []) Sample.start).2
                  <> [])
    by (vm_compute; discriminate).
  split; [reflexivity|]. split; [reflexivity|]. split; [reflexivity|].
  split; [exact Hrows|].
  destruct (resolver_falls_back_to_store (Sample.env []) Cases.owner_field
              Cases.user_ref
              (create_base_auth_models (Sample.env []) Sample.start).2
              eq_refl eq_refl eq_refl Hrows) as (Ht & Hok & _).
  split; [exact Ht|]. apply Hok. reflexivity.
Defined.

(** After bootstrap on an empty store, a relation to [auth.user]
    resolves to the administrative account; a relation to a model
    without stored instances resolves to [None]. *)
Example resolver_after_bootstrap :
  let s := (create_base_auth_models (Sample.env []) Sample.start).2 in
  (generate_field_value (Sample.env []) Cases.owner_field s).1
  = Ok (VObj "auth.user" 1) /\
  (generate_field_value (Sample.env []) Sample.tag_field s).1 = Ok VNone.
Proof. vm_compute. split; reflexivity. Qed.

Section Builder2.

Variable env : Env.

Lemma defaults_other (fs : list Field) (attrs : list (string * Value))
  (n : string) :
  n ∉ map name fs ->
  getattr (foldl (fun a g => setattr a (name g) (get_default g)) attrs fs) n
  = getattr attrs n.
Proof.
  revert attrs. induction fs as [|g fs IH]; intros attrs Hn; [reflexivity|].
  apply not_elem_of_cons in Hn as [Hne Hn]. cbn [foldl].
  rewrite IH by exact Hn. apply getattr_setattr_ne. congruence.
Qed.

Lemma defaults_set (fs : list Field) (attrs : list (string * Value))
  (f : Field) :
  NoDup (map name fs) -> f ∈ fs ->
  getattr (foldl (fun a g => setattr a (name g) (get_default g)) attrs fs)
    (name f) = Some (get_default f).
Proof.
  revert attrs. induction fs as [|g fs IH]; intros attrs Hnd Hin.
  - inversion Hin.
  - cbn in Hnd. apply NoDup_cons in Hnd as [Hg Hnd]. cbn [foldl].
    apply elem_of_cons in Hin as [<- | Hin]; [|auto].
    rewrite defaults_other by exact Hg. apply getattr_setattr_eq.
Qed.

Lemma assign_fields_skipped (fs : list Field) (f : Field)
  (instance o : Instance) (s s' : State) :
  assign_fields env fs instance s = (Ok o, s') ->
  NoDup (map name fs) -> f ∈ fs ->
  PyStr.mem (name f) ["id"; "pk"] = true ->
  getattr (inst_attrs o) (name f) = getattr (inst_attrs instance) (name f).
Proof.
  intros Hrun Hnd Hin Hpk. revert instance s Hrun Hnd Hin.
  induction fs as [|g fs IH]; intros instance s Hrun Hnd Hin.
  - inversion Hin.
  - cbn in Hnd. apply NoDup_cons in Hnd as [Hg Hnd].
    cbn [assign_fields] in Hrun.
    apply elem_of_cons in Hin as [<- | Hin].
    + rewrite Hpk in Hrun. eapply assign_fields_other; eauto.
    + assert (Hne : name g <> name f).
      { intros E. apply Hg. rewrite E. apply list_elem_of_fmap. eauto. }
      destruct (PyStr.mem (name g) ["id"; "pk"]); [eapply IH; eauto|].
      unfold bind in Hrun.
      destruct (generate_field_value_returns env g s) as (v & s1 & Hv).
      rewrite Hv in Hrun. rewrite (IH _ _ Hrun Hnd Hin). cbn.
      apply getattr_setattr_ne. exact Hne.
Qed.

Lemma assign_fields_synthesized (fs : list Field) (f : Field)
  (instance o : Instance) (s s' : State) :
  assign_fields env fs instance s = (Ok o, s') ->
  NoDup (map name fs) -> f ∈ fs ->
  PyStr.mem (name f) ["id"; "pk"] = false ->
  exists s1 s2 v, generate_field_value env f s1 = (Ok v, s2) /\
                  getattr (inst_attrs o) (name f) = Some v.
Proof.
  intros Hrun Hnd Hin Hpk. revert instance s Hrun Hnd Hin.
  induction fs as [|g fs IH]; intros instance s Hrun Hnd Hin.
  - inversion Hin.
  - cbn in Hnd. apply NoDup_cons in Hnd as [Hg Hnd].
    cbn [assign_fields] in Hrun.
    apply elem_of_cons in Hin as [<- | Hin].
    + rewrite Hpk in Hrun. unfold bind in Hrun.
      destruct (generate_field_value_returns env f s) as (v & s1 & Hv).
      rewrite Hv in Hrun. exists s, s1, v. split; [exact Hv|].
      rewrite (assign_fields_other _ _ _ _ _ _ _ Hrun Hg).
      cbn [set_instance_attr inst_attrs]. apply getattr_setattr_eq.
    + destruct (PyStr.mem (name g) ["id"; "pk"]); [eapply IH; eauto|].
      unfold bind in Hrun.
      destruct (generate_field_value_returns env g s) as (v & s1 & Hv).
      rewrite Hv in Hrun. eapply IH; eauto.
Qed.

End Builder2.

(** X9.  The instance builder does not touch a field named [id] or
    [pk]: the attribute of the built instance is the field's
    default. *)
Theorem identity_field_keeps_default (env : Env) (model : Model) (f : Field)
  (s : State) :
  f ∈ fields model ->
  NoDup (map name (fields model)) ->
  PyStr.mem (name f) ["id"; "pk"] = true ->
  exists o s', create_model_instance env model s = (Ok o, s') /\
               getattr (inst_attrs o) (name f) = Some (get_default f).
Proof.
  intros Hin Hnd Hpk.
  unfold create_model_instance, bind, new_instance.
  match goal with |- context [assign_fields env ?fs ?i ?st] =>
    destruct (assign_fields_returns env fs i st) as (o & s' & Hrun & _ & _)
  end.
  exists o, s'. split; [exact Hrun|].
  rewrite (assign_fields_skipped env _ f _ _ _ _ Hrun Hnd Hin Hpk).
  cbn [inst_attrs]. apply defaults_set; assumption.
Qed.

Lemma sample_host_names : NoDup (map name (fields Sample.host_model)).
Proof.
  cbn. apply NoDup_cons. split.
  - intros H. apply list_elem_of_singleton in H. discriminate.
  - apply NoDup_singleton.
Qed.

Lemma identity_field_keeps_default_witness :
  Cases.key_field ∈ fields Sample.host_model /\
  NoDup (map name (fields Sample.host_model)) /\
  PyStr.mem (name Cases.key_field) ["id"; "pk"] = true /\
  exists o s',
    create_model_instance (Sample.env []) Sample.host_model Sample.start
    = (Ok o, s') /\
    getattr (inst_attrs o) (name Cases.key_field) = Some (get_default Cases.key_field).
Proof.
  assert (Hin : Cases.key_field ∈ fields Sample.host_model) by (cbn; left).
  split; [exact Hin|]. split; [exact sample_host_names|].
  split; [reflexivity|].
  apply (identity_field_keeps_default (Sample.env []) Sample.host_model
           Cases.key_field Sample.start Hin sample_host_names eq_refl).
Defined.

(** C4, amended.  For a field of an unrecognized kind the synthesizer
    returns [None] and leaves the state as it is.  The instance builder
    assigns that [None] to the field of the instance it constructs,
    over the declared default; only a field named [id] or [pk] is
    skipped by the builder and stays at its default. *)
Theorem unrecognized_field_in_built_instance (env : Env) (model : Model)
  (f : Field) (s : State) :
  f ∈ fields model ->
  recognized f = false ->
  NoDup (map name (fields model)) ->
  generate_field_value env f s = (Ok VNone, s) /\
  exists o s', create_model_instance env model s = (Ok o, s') /\
               getattr (inst_attrs o) (name f)
               = Some (if PyStr.mem (name f) ["id"; "pk"]
                       then get_default f else VNone).
Proof.
  intros Hin Hrec Hnd.
  split; [apply unrecognized_gets_none; exact Hrec|].
  unfold create_model_instance, bind, new_instance.
  match goal with |- context [assign_fields env ?fs ?i ?st] =>
    destruct (assign_fields_returns env fs i st) as (o & s' & Hrun & _ & _)
  end.
  exists o, s'. split; [exact Hrun|].
  destruct (PyStr.mem (name f) ["id"; "pk"]) eqn:Hpk.
  - rewrite (assign_fields_skipped env _ f _ _ _ _ Hrun Hnd Hin Hpk).
    cbn [inst_attrs]. apply defaults_set; assumption.
  - eapply assign_fields_unrecognized; eauto.
Qed.

Lemma unrecognized_field_in_built_instance_witness :
  Sample.ip_field ∈ fields Sample.host_model /\
  recognized Sample.ip_field = false /\
  NoDup (map name (fields Sample.host_model)) /\
  generate_field_value (Sample.env []) Sample.ip_field Sample.start
  = (Ok VNone, Sample.start) /\
  exists o s',
    create_model_instance (Sample.env []) Sample.host_model Sample.start
    = (Ok o, s') /\
    getattr (inst_attrs o) (name Sample.ip_field)
    = Some (if PyStr.mem (name Sample.ip_field) ["id"; "pk"]
            then get_default Sample.ip_field else VNone).
Proof.
  assert (Hin : Sample.ip_field ∈ fields Sample.host_model)
    by (cbn; apply elem_of_cons; right; apply elem_of_cons; left; reflexivity).
  split; [exact Hin|]. split; [reflexivity|].
  split; [exact sample_host_names|].
  apply (unrecognized_field_in_built_instance (Sample.env [])
           Sample.host_model Sample.ip_field Sample.start Hin eq_refl
           sample_host_names).
Defined.

(** A [UUIDField] named [id] is of an unrecognized kind, and the built
    instance has its default: the builder skips it. *)
Example unrecognized_key_keeps_default :
  recognized Cases.uuid_key_field = false /\
  exists o s',
    create_model_instance (Sample.env []) Cases.token_model Sample.start
    = (Ok o, s') /\
    getattr (inst_attrs o) "id" = Some (get_default Cases.uuid_key_field) /\
    getattr (inst_attrs o) "ip" = Some VNone.
Proof.
  split; [reflexivity|]. do 2 eexists.
  split; [reflexivity|]. split; reflexivity.
Qed.


(** X10.  Every other field of a built instance holds what the
    synthesizer returned for it: [None], or a value of the kind a field
    of that class stores. *)
Theorem built_attribute_kind (env : Env) (model : Model) (f : Field)
  (s : State) :
  f ∈ fields model ->
  NoDup (map name (fields model)) ->
  PyStr.mem (name f) ["id"; "pk"] = false ->
  exists o s' v,
    create_model_instance env model s = (Ok o, s') /\
    getattr (inst_attrs o) (name f) = Some v /\
    (v = VNone \/ kind_of v = stored_kind (f_class f)).
Proof.
  intros Hin Hnd Hpk.
  unfold create_model_instance, bind, new_instance.
  match goal with |- context [assign_fields env ?fs ?i ?st] =>
    destruct (assign_fields_returns env fs i st) as (o & s' & Hrun & _ & _)
  end.
  destruct (assign_fields_synthesized env _ f _ _ _ _ Hrun Hnd Hin Hpk)
    as (s1 & s2 & v & Hv & Hget).
  destruct (generate_field_value_kind env f s1) as (v' & Hv' & Hkind).
  rewrite Hv in Hv'. injection Hv' as <-.
  exists o, s', v. auto.
Qed.

Lemma built_attribute_kind_witness :
  Sample.ip_field ∈ fields Sample.host_model /\
  NoDup (map name (fields Sample.host_model)) /\
  PyStr.mem (name Sample.ip_field) ["id"; "pk"] = false /\
  exists o s' v,
    create_model_instance (Sample.env []) Sample.host_model Sample.start
    = (Ok o, s') /\
    getattr (inst_attrs o) (name Sample.ip_field) = Some v /\
    (v = VNone \/ kind_of v = stored_kind (f_class Sample.ip_field)).
Proof.
  assert (Hin : Sample.ip_field ∈ fields Sample.host_model)
    by (cbn; right; left).
  split; [exact Hin|]. split; [exact sample_host_names|].
  split; [reflexivity|].
  apply (built_attribute_kind (Sample.env []) Sample.host_model
           Sample.ip_field Sample.start Hin sample_host_names eq_refl).
Defined.

(** ** What leaves [self] alone *)

Lemma same_self_refl (s : State) : same_self s s.
Proof. repeat split. Qed.

Lemma same_self_trans (a b c : State) :
  same_self a b -> same_self b c -> same_self a c.
Proof.
  intros (H1 & H2 & H3) (K1 & K2 & K3). repeat split; congruence.
Qed.

Lemma steady_ret {A} (a : A) : steady (ret a).
Proof. intros s. apply same_self_refl. Qed.

Lemma steady_raise {A} (e : Exn) : steady (@raise A e).
Proof. intros s. apply same_self_refl. Qed.

Lemma steady_gets {A} (f : State -> A) : steady (gets f).
Proof. intros s. apply same_self_refl. Qed.

Lemma steady_tick : steady tick.
Proof. intros s. repeat split. Qed.

Lemma steady_emit (e : Event) : steady (emit e).
Proof. intros s. repeat split. Qed.

Lemma steady_modify (f : State -> State) :
  (forall s, same_self s (f s)) -> steady (modify f).
Proof. intros Hf s. apply Hf. Qed.

Lemma steady_bind {A B} (m : M A) (k : A -> M B) :
  steady m -> (forall a, steady (k a)) -> steady (bind m k).
Proof.
  intros Hm Hk s. unfold bind. specialize (Hm s).
  destruct (m s) as [[a|e] s1]; cbn in Hm; [|exact Hm].
  eapply same_self_trans; [exact Hm|apply Hk].
Qed.

Lemma steady_try_except {A} (m : M A) (h : Exn -> M A) :
  steady m -> (forall e, steady (h e)) -> steady (try_except m h).
Proof.
  intros Hm Hh s. unfold try_except. specialize (Hm s).
  destruct (m s) as [[a|e] s1]; cbn in Hm; [exact Hm|].
  eapply same_self_trans; [exact Hm|apply Hh].
Qed.

Lemma steady_for_each {A} (xs : list A) (body : A -> M unit) :
  (forall x, steady (body x)) -> steady (for_each xs body).
Proof.
  intros Hb. induction xs as [|x xs IH]; cbn [for_each].
  - apply steady_ret.
  - apply steady_bind; auto.
Qed.

Ltac steady_step :=
  match goal with
  | |- steady (ret _) => apply steady_ret
  | |- steady (raise _) => apply steady_raise
  | |- steady (gets _) => apply steady_gets
  | |- steady tick => apply steady_tick
  | |- steady (bind _ _) => apply steady_bind; [|intros ?]
  | |- steady (try_except _ _) => apply steady_try_except; [|intros ?]
  | |- steady (for_each _ _) => apply steady_for_each; intros ?
  | |- steady (emit _) => apply steady_emit
  | |- steady (stdout_write _) => apply steady_emit
  | |- steady (logger_error _) => apply steady_emit
  | |- steady (modify _) =>
      apply steady_modify; intros ?; repeat split
  | |- steady (if ?b then _ else _) => destruct b
  | |- steady (match ?x with _ => _ end) => destruct x
  end.

Section SteadyCommand.

Variable env : Env.

Lemma steady_draw_sample {A} (k : nat) (xs : list A) :
  steady (draw_sample env k xs).
Proof.
  revert xs. induction k as [|k IH]; intros xs; cbn [draw_sample];
    repeat steady_step. apply IH.
Qed.

Lemma steady_random_choice {A} (xs : list A) : steady (random_choice env xs).
Proof. unfold random_choice. repeat steady_step. Qed.

Lemma steady_generate_field_value (f : Field) :
  steady (generate_field_value env f).
Proof.
  unfold generate_field_value, faker_email, faker_phone_number, faker_name,
    faker_text, faker_date_time_this_decade, faker_date_this_decade,
    faker_boolean, faker_random_int, faker_url, faker_pydecimal, timezone_now,
    random_randint, random_first, db_issue.
  repeat first [apply steady_random_choice | steady_step].
Qed.

Lemma steady_assign_fields (fs : list Field) (instance : Instance) :
  steady (assign_fields env fs instance).
Proof.
  revert instance.
  induction fs as [|f fs IH]; intros instance; cbn [assign_fields].
  - apply steady_ret.
  - destruct (PyStr.mem (name f) ["id"; "pk"]); [apply IH|].
    apply steady_bind; [apply steady_generate_field_value|].
    intros v. apply IH.
Qed.

Lemma steady_create_model_instance (model : Model) :
  steady (create_model_instance env model).
Proof.
  unfold create_model_instance. apply steady_bind.
  - intros s. repeat split.
  - intros i. apply steady_assign_fields.
Qed.

Lemma steady_save (obj : Instance) : steady (save env obj).
Proof. unfold save, db_issue. repeat steady_step. Qed.

Lemma steady_create_objects (model : Model) (model_name : string)
  (indices : list nat) (created : list Instance) :
  steady (create_objects env model model_name indices created).
Proof.
  revert created.
  induction indices as [|i indices IH]; intros created; cbn [create_objects].
  - apply steady_ret.
  - apply steady_bind; [|intros c; apply IH].
    repeat first [ apply steady_create_model_instance | apply steady_save
                 | steady_step ].
Qed.

Lemma steady_handle_many_to_many_relations (model : Model) :
  steady (handle_many_to_many_relations env model).
Proof.
  unfold handle_many_to_many_relations, attach_related, random_randint,
    random_sample, set_relation, db_issue.
  repeat first [apply steady_draw_sample | steady_step].
Qed.

Lemma steady_create_base_auth_models : steady (create_base_auth_models env).
Proof.
  unfold create_base_auth_models, group_get_or_create, superuser_exists,
    create_superuser, db_issue.
  repeat steady_step.
Qed.

Lemma steady_filter_models (ms : list Model) (ex : OptionValue) :
  steady (filter_models ms ex).
Proof.
  induction ms as [|m ms IH]; cbn [filter_models].
  - apply steady_ret.
  - unfold not_in. repeat first [exact IH | steady_step].
Qed.

End SteadyCommand.

(** ** Accounting of the generation *)

Lemma failed_saves_app (a b : list Event) :
  failed_saves (a ++ b) = (failed_saves a + failed_saves b)%nat.
Proof. unfold failed_saves. rewrite List.filter_app, length_app. done. Qed.

Lemma failed_saves_quiet (evs : list Event) :
  Forall is_log_or_query evs -> failed_saves evs = 0%nat.
Proof.
  unfold failed_saves. induction 1 as [|e evs He _ IH]; [reflexivity|].
  destruct e; cbn in *; try contradiction; exact IH.
Qed.

Section Accounting.

Variable env : Env.

Lemma create_objects_accounting (model : Model) (model_name : string)
  (indices : list nat) (created : list Instance) (s : State) :
  exists fresh evs s',
    create_objects env model model_name indices created s
    = (Ok (created ++ fresh), s') /\
    db_rows s' = db_rows s ++ fresh /\
    next_id s' = (next_id s + length indices)%nat /\
    trace s' = trace s ++ evs /\
    (length fresh + failed_saves evs = length indices)%nat /\
    Forall (fun o => inst_model o = qualified_name model /\
                     (next_id s <= inst_id o)%nat) fresh /\
    NoDup (map inst_id fresh).
Proof.
  revert created s.
  induction indices as [|i indices IH]; intros created s;
    cbn [create_objects].
  { exists [], [], s. rewrite !app_nil_r. cbn.
    repeat split; auto; try lia. constructor. }
  destruct (create_objects_turn env model model_name i created s)
    as (obj & evs & c1 & s1 & Hturn & Hid & Hm & Hev & Hc & Hn & Hcase).
  unfold bind at 1. rewrite Hturn.
  destruct (IH c1 s1)
    as (fresh & evs2 & s2 & Hrun & Hr2 & Hn2 & Ht2 & Hcount & Hall & Hnd).
  assert (Hall' : Forall (fun o => inst_model o = qualified_name model /\
                                   (next_id s <= inst_id o)%nat) fresh).
  { eapply Forall_impl; [exact Hall|]. cbn. intros o [? ?]. split; [done|lia]. }
  destruct Hcase as [(-> & Hr & Ht) | (-> & Hr & msg & Ht)].
  - exists (obj :: fresh), (evs ++ [EvSaved obj] ++ evs2), s2.
    split; [rewrite Hrun, <- app_assoc; reflexivity|].
    split; [rewrite Hr2, Hr, <- app_assoc; reflexivity|].
    split; [rewrite Hn2, Hn; cbn; lia|].
    split; [rewrite Ht2, Ht, <- !app_assoc; reflexivity|].
    split.
    { rewrite !failed_saves_app, (failed_saves_quiet _ Hev). cbn in *. lia. }
    split; [constructor; [split; [done|lia]|exact Hall']|].
    cbn. apply NoDup_cons. split; [|exact Hnd].
    intros Hin. apply list_elem_of_fmap in Hin as (o & Ho & Hin).
    rewrite Forall_forall in Hall. destruct (Hall o Hin) as [_ Hge]. lia.
  - exists fresh, (evs ++ [EvSaveFailed obj; EvLogError msg] ++ evs2), s2.
    split; [exact Hrun|].
    split; [rewrite Hr2, Hr; reflexivity|].
    split; [rewrite Hn2, Hn; cbn; lia|].
    split; [rewrite Ht2, Ht, <- !app_assoc; reflexivity|].
    split.
    { rewrite !failed_saves_app, (failed_saves_quiet _ Hev). cbn in *. lia. }
    split; [exact Hall'|exact Hnd].
Qed.

End Accounting.

Lemma generate_data_for_model_effect (env : Env) (model : Model) (s : State) :
  abstract model = false ->
  exists created evs,
    created_objects (generate_data_for_model env model s).2
    = <[qualified_name model := created]> (created_objects s) /\
    processed_models (generate_data_for_model env model s).2
    = {[qualified_name model]} ∪ processed_models s /\
    skipped_models (generate_data_for_model env model s).2
    = skipped_models s /\
    db_rows (generate_data_for_model env model s).2 = db_rows s ++ created /\
    next_id (generate_data_for_model env model s).2
    = (next_id s + instances_per_model)%nat /\
    trace (generate_data_for_model env model s).2 = trace s ++ evs /\
    (length created + failed_saves evs = instances_per_model)%nat /\
    Forall (fun o => inst_model o = qualified_name model) created /\
    NoDup (map inst_id created).
Proof.
  intros Habs.
  set (s0 := set_trace
               (trace s ++ [EvStdout ("Generating data for "
                                      +:+ qualified_name model +:+ "...")]) s).
  destruct (create_objects_accounting env model (qualified_name model)
              (seq 0 instances_per_model) [] s0)
    as (fresh & evs & s1 & Hrun & Hr & Hn & Ht & Hcount & Hall & Hnd).
  pose proof (steady_create_objects env model (qualified_name model)
                (seq 0 instances_per_model) [] s0) as (Hc & Hp & Hk).
  rewrite Hrun in Hc, Hp, Hk. cbn [snd] in Hc, Hp, Hk.
  assert (Hgen : generate_data_for_model env model s
    = (Ok tt,
       set_created_objects
         (<[qualified_name model := fresh]> (created_objects s1))
         (set_processed_models
            ({[qualified_name model]} ∪ processed_models s1) s1))).
  { unfold generate_data_for_model, try_except, bind at 1.
    unfold stdout_write, emit, modify at 1. rewrite Habs.
    fold s0. unfold bind at 1. rewrite Hrun. reflexivity. }
  rewrite Hgen. cbn [snd].
  rewrite length_seq in Hn, Hcount.
  exists fresh, ([EvStdout ("Generating data for " +:+ qualified_name model
                            +:+ "...")] ++ evs).
  split; [cbn; rewrite Hc; reflexivity|].
  split; [cbn; rewrite Hp; reflexivity|].
  split; [cbn; rewrite Hk; reflexivity|]. split; [exact Hr|].
  split; [exact Hn|]. split; [cbn; rewrite Ht; unfold s0; cbn; rewrite <- app_assoc; reflexivity|].
  split; [rewrite failed_saves_app; cbn; exact Hcount|].
  split; [|exact Hnd].
  eapply Forall_impl; [exact Hall|]. cbn. tauto.
Qed.

(** X11.  For a model that is not abstract, [generate_data_for_model]
    allocates exactly 100 objects; those whose save returned are
    appended to the store and form the model's ledger entry, the others
    are reported as failed saves; the model is marked processed (even
    when every save failed) and never skipped.  The instances of the
    entry are of that model and pairwise distinct. *)
Theorem generation_accounting (env : Env) (model : Model) (s : State) :
  abstract model = false ->
  exists created evs,
    created_objects (generate_data_for_model env model s).2
    = <[qualified_name model := created]> (created_objects s) /\
    processed_models (generate_data_for_model env model s).2
    = {[qualified_name model]} ∪ processed_models s /\
    skipped_models (generate_data_for_model env model s).2
    = skipped_models s /\
    db_rows (generate_data_for_model env model s).2 = db_rows s ++ created /\
    next_id (generate_data_for_model env model s).2
    = (next_id s + instances_per_model)%nat /\
    trace (generate_data_for_model env model s).2 = trace s ++ evs /\
    (length created + failed_saves evs = instances_per_model)%nat /\
    Forall (fun o => inst_model o = qualified_name model) created /\
    NoDup (map inst_id created).
Proof. apply generate_data_for_model_effect. Qed.

Lemma generation_accounting_witness :
  abstract Sample.tag_model = false /\
  exists created evs,
    created_objects (generate_data_for_model
                       (Sample.flaky_env []) Sample.tag_model Sample.start).2
    = <[qualified_name Sample.tag_model := created]>
        (created_objects Sample.start) /\
    (length created + failed_saves evs = instances_per_model)%nat.
Proof.
  split; [reflexivity|].
  destruct (generation_accounting (Sample.flaky_env []) Sample.tag_model
              Sample.start eq_refl)
    as (created & evs & H1 & _ & _ & _ & _ & _ & H7 & _).
  exists created, evs. split; assumption.
Defined.

(** ** Marks and the shape of the ledger *)

Lemma generate_data_for_model_abstract (env : Env) (model : Model)
  (s : State) :
  abstract model = true ->
  generate_data_for_model env model s
  = (Ok tt,
     set_skipped_models
       ({[qualified_name model +:+ " (abstract)"]} ∪ skipped_models s)
       (set_trace
          (trace s ++ [EvStdout ("Generating data for "
                                 +:+ qualified_name model +:+ "...")]) s)).
Proof.
  intros Habs. unfold generate_data_for_model. rewrite Habs. reflexivity.
Qed.

Lemma marks_grow_refl (s : State) : marks_grow s s.
Proof. split; reflexivity. Qed.

Lemma marks_grow_trans (a b c : State) :
  marks_grow a b -> marks_grow b c -> marks_grow a c.
Proof. intros [H1 H2] [K1 K2]. split; set_solver. Qed.

Lemma marks_grow_same_self (s s' : State) : same_self s s' -> marks_grow s s'.
Proof. intros (_ & H1 & H2). split; rewrite ?H1, ?H2; reflexivity. Qed.

Lemma marked_grow (m : Model) (s s' : State) :
  marks_grow s s' -> marked m s -> marked m s'.
Proof. unfold marked. intros [H1 H2]. destruct (abstract m); set_solver. Qed.

Lemma ledger_shape_same_self (s s' : State) :
  same_self s s' -> ledger_shape s -> ledger_shape s'.
Proof.
  intros (H1 & H2 & _) Hs k objs Hk. rewrite H1 in Hk. rewrite H2. auto.
Qed.

Section Marks.

Variable env : Env.

Lemma generate_data_for_model_marks (model : Model) (s : State) :
  marks_grow s (generate_data_for_model env model s).2 /\
  marked model (generate_data_for_model env model s).2 /\
  (ledger_shape s -> ledger_shape (generate_data_for_model env model s).2).
Proof.
  unfold marked. destruct (abstract model) eqn:Habs.
  - rewrite (generate_data_for_model_abstract env model s Habs). cbn.
    split; [split; set_solver|]. split; [set_solver|].
    intros Hs k objs Hk. apply Hs. exact Hk.
  - destruct (generate_data_for_model_effect env model s Habs)
      as (created & evs & Hc & Hp & Hk & _ & _ & _ & Hcount & Hall & _).
    split; [split; [rewrite Hp; apply union_subseteq_r|
                    rewrite Hk; reflexivity]|].
    split; [rewrite Hp; apply elem_of_union_l, elem_of_singleton;
            reflexivity|].
    intros Hs k objs Hlook. rewrite Hc in Hlook. rewrite Hp.
    destruct (decide (qualified_name model = k)) as [<-|Hne].
    + rewrite lookup_insert_eq in Hlook. injection Hlook as <-.
      split; [apply elem_of_union_l, elem_of_singleton; reflexivity|].
      split; [lia|exact Hall].
    + rewrite lookup_insert_ne in Hlook by exact Hne.
      destruct (Hs k objs Hlook) as (? & ? & ?).
      split; [apply elem_of_union_r; assumption|auto].
Qed.

(** One turn of the loop of [handle]: it returns normally. *)
Lemma process_turn (model : Model) (s : State) :
  exists s1,
    try_except
      (generate_data_for_model env model;;;
       handle_many_to_many_relations env model)
      (fun e => stdout_write ("Error processing " +:+ label model
                              +:+ ": " +:+ str_exn e)) s = (Ok tt, s1) /\
    marks_grow s s1 /\ marked model s1 /\
    (ledger_shape s -> ledger_shape s1).
Proof.
  destruct (generate_data_for_model_spec env model s) as (s1 & Hgen & _).
  pose proof (generate_data_for_model_marks model s) as (Hg & Hm & Hl).
  rewrite Hgen in Hg, Hm, Hl. cbn [snd] in Hg, Hm, Hl.
  pose proof (steady_handle_many_to_many_relations env model s1) as Hw.
  unfold try_except, bind at 1. rewrite Hgen.
  destruct (handle_many_to_many_relations env model s1) as [[[]|e] s2];
    cbn [snd] in Hw.
  - exists s2. split; [reflexivity|].
    split; [eapply marks_grow_trans; eauto using marks_grow_same_self|].
    split; [eapply marked_grow; eauto using marks_grow_same_self|].
    intros Hs. eapply ledger_shape_same_self; eauto.
  - unfold stdout_write, emit, modify. eexists. split; [reflexivity|].
    assert (Hw' : same_self s1
              (set_trace (trace s2 ++ [EvStdout ("Error processing "
                 +:+ label model +:+ ": " +:+ str_exn e)]) s2))
      by (destruct Hw as (? & ? & ?); repeat split; assumption).
    split; [eapply marks_grow_trans; eauto using marks_grow_same_self|].
    split; [eapply marked_grow; eauto using marks_grow_same_self|].
    intros Hs. eapply ledger_shape_same_self; eauto.
Qed.

Lemma process_models_marks (models : list Model) (s : State) :
  marks_grow s (process_models env models s).2 /\
  (forall m, m ∈ models -> marked m (process_models env models s).2) /\
  (ledger_shape s -> ledger_shape (process_models env models s).2).
Proof.
  revert s. induction models as [|model models IH]; intros s.
  { split; [apply marks_grow_refl|]. split; [|auto].
    intros m Hm. inversion Hm. }
  destruct (process_turn model s) as (s1 & Hturn & Hg & Hm & Hl).
  assert (Hstep : process_models env (model :: models) s
                  = process_models env models s1).
  { unfold process_models. cbn [for_each]. unfold bind at 1.
    rewrite Hturn. reflexivity. }
  rewrite Hstep. destruct (IH s1) as (Hg' & Hm' & Hl').
  split; [eapply marks_grow_trans; eauto|]. split; [|auto].
  intros m Hin. apply elem_of_cons in Hin as [->|Hin]; [|auto].
  eapply marked_grow; eauto.
Qed.

Lemma handle_ledger_shape (options : gmap string OptionValue) :
  preserves ledger_shape (handle env options).
Proof.
  assert (Hsteady : forall A (m : M A), steady m -> preserves ledger_shape m).
  { intros A m Hm s Hs. eapply ledger_shape_same_self; eauto. }
  unfold handle. apply preserves_try_except.
  - apply preserves_bind.
    { apply Hsteady, steady_create_base_auth_models. }
    intros _. apply preserves_bind.
    { apply Hsteady, steady_filter_models. }
    intros models_to_process. apply preserves_bind.
    { intros s. apply process_models_marks. }
    intros _. apply Hsteady. repeat steady_step.
  - intros e. apply Hsteady. repeat steady_step.
Qed.

End Marks.

(** X12.  The loop over the models never raises, and no model of the
    sequence is lost: at the end each one is marked processed, or
    skipped as abstract, whatever failed on the way. *)
Theorem every_model_is_marked (env : Env) (models : list Model) (m : Model)
  (s : State) :
  m ∈ models ->
  (process_models env models s).1 = Ok tt /\
  marked m (process_models env models s).2.
Proof.
  intros Hm. split.
  - destruct (process_models_spec env models s) as (s' & -> & _). reflexivity.
  - apply process_models_marks. exact Hm.
Qed.

Lemma every_model_is_marked_witness :
  Sample.deal_model ∈ Sample.three_models /\
  marked Sample.deal_model
    (process_models (Sample.flaky_env []) Sample.three_models Sample.start).2.
Proof.
  assert (Hin : Sample.deal_model ∈ Sample.three_models) by (right; left).
  split; [exact Hin|].
  apply (every_model_is_marked (Sample.flaky_env []) Sample.three_models
           Sample.deal_model Sample.start Hin).
Defined.

(** X13.  At every point of a run, each entry of the ledger belongs to
    a model marked processed and holds at most 100 instances, all of
    that model. *)
Theorem ledger_shape_at_every_point (env : Env) (s : State) :
  run_state env s -> ledger_shape s.
Proof.
  induction 1.
  - intros k objs Hk. cbn in Hk. rewrite lookup_empty in Hk. discriminate.
  - eapply ledger_shape_same_self; [|exact IHrun_state].
    apply steady_create_base_auth_models.
  - apply generate_data_for_model_marks. exact IHrun_state.
  - eapply ledger_shape_same_self; [|exact IHrun_state].
    apply steady_handle_many_to_many_relations.
  - apply process_models_marks. exact IHrun_state.
  - apply handle_ledger_shape. exact IHrun_state.
Qed.

Lemma ledger_shape_at_every_point_witness :
  let s := (handle (Sample.flaky_env Sample.three_models)
              (parse_options (Some [])) Sample.start).2 in
  run_state (Sample.flaky_env Sample.three_models) s /\ ledger_shape s.
Proof.
  cbv zeta.
  assert (Hrun : run_state (Sample.flaky_env Sample.three_models)
            (handle (Sample.flaky_env Sample.three_models)
               (parse_options (Some [])) Sample.start).2)
    by (apply run_handle, run_start).
  split; [exact Hrun|].
  apply (ledger_shape_at_every_point _ _ Hrun).
Defined.


(** ** Wiring *)

Section Wiring.

Variable env : Env.

Lemma wiring_loop_skips (model : Model) (fs : list M2MField) (s : State) :
  (forall field, field ∈ fs ->
     dict_get (created_objects s) (ref_name (m2m_remote field)) = [] \/
     dict_get (created_objects s) (qualified_name model) = []) ->
  for_each fs (fun field =>
    related_objects <~
      gets (fun s => dict_get (created_objects s)
                       (ref_name (m2m_remote field))) ;;
    match related_objects with
    | [] => ret tt
    | _ :: _ =>
        objs <~ gets (fun s => dict_get (created_objects s)
                                 (qualified_name model)) ;;
        for_each objs (attach_related env model field related_objects)
    end) s = (Ok tt, s).
Proof.
  induction fs as [|field fs IH]; intros Hfs; [reflexivity|].
  cbn [for_each]. unfold bind at 1. unfold bind at 1, gets at 1.
  destruct (Hfs field) as [H|H]; [left| |].
  - rewrite H. cbn. apply IH. intros g Hg. apply Hfs. right. exact Hg.
  - destruct (dict_get (created_objects s) (ref_name (m2m_remote field))).
    + cbn. apply IH. intros g Hg. apply Hfs. right. exact Hg.
    + unfold bind at 1, gets at 1. rewrite H. cbn.
      apply IH. intros g Hg. apply Hfs. right. exact Hg.
Qed.

Lemma draw_sample_spec {A} (k : nat) (population : list A) (s : State) :
  (k <= length population)%nat ->
  exists l s', draw_sample env k population s = (Ok l, s') /\
               length l = k /\ l ⊆+ population /\
               trace s' = trace s /\ db_links s' = db_links s.
Proof.
  revert population s. induction k as [|k IH]; intros population s Hk.
  { exists [], s. cbn. repeat split; auto. apply submseteq_nil_l. }
  cbn [draw_sample]. unfold bind at 1, tick at 1.
  set (i := (rand env (clock s) mod length population)%nat).
  assert (Hi : (i < length population)%nat)
    by (apply Nat.mod_upper_bound; lia).
  destruct (lookup_lt_is_Some_2 _ _ Hi) as [x Hx]. rewrite Hx.
  destruct (IH (delete i population) (set_clock (S (clock s)) s))
    as (l & s' & Hrun & Hlen & Hsub & Ht & Hl).
  { rewrite length_delete by eauto. lia. }
  unfold bind at 1. rewrite Hrun. cbn.
  exists (x :: l), s'. split; [reflexivity|]. split; [cbn; lia|].
  split; [|auto].
  rewrite (delete_Permutation population i x Hx).
  apply submseteq_skip. exact Hsub.
Qed.

Lemma keeps_for_each {A} (P : Event -> Prop)
  (ledger : gmap string (list Instance)) (xs : list A) (body : A -> M unit) :
  (forall x s, x ∈ xs -> created_objects s = ledger ->
               keeps P s (body x s).2) ->
  forall s, created_objects s = ledger -> keeps P s (for_each xs body s).2.
Proof.
  induction xs as [|x xs IH]; intros Hb s Hs; cbn [for_each].
  - apply keeps_refl.
  - unfold bind.
    assert (Hx : keeps P s (body x s).2) by (apply Hb; [left|exact Hs]).
    destruct (body x s) as [[[]|e] s1]; cbn [fst snd] in *; [|exact Hx].
    eapply keeps_trans; [exact Hx|].
    apply IH.
    + intros y s' Hy. apply Hb. right. exact Hy.
    + destruct Hx as (Hc & _). congruence.
Qed.

(** The relation write: it raises what the backend raises and then
    records nothing; otherwise it records the link and the attachment. *)
Lemma set_relation_cases (obj : Instance) (n : string)
  (related : list Instance) (s : State) :
  match db_fault env (clock s) (OpSetRelation obj n related) with
  | Some e =>
      (set_relation env obj n related s).1 = Raise e /\
      keeps (fun _ => False) s (set_relation env obj n related s).2 /\
      trace (set_relation env obj n related s).2 = trace s /\
      db_links (set_relation env obj n related s).2 = db_links s
  | None =>
      (set_relation env obj n related s).1 = Ok tt /\
      keeps (fun e => e = EvAttached n obj related) s
        (set_relation env obj n related s).2 /\
      trace (set_relation env obj n related s).2
      = trace s ++ [EvAttached n obj related] /\
      (obj, n, related) ∈ db_links (set_relation env obj n related s).2
  end.
Proof.
  unfold set_relation, db_issue. unfold_cmd. cbn.
  destruct (db_fault env (clock s) (OpSetRelation obj n related)); cbn.
  - split; [reflexivity|]. split; [|auto].
    repeat split. exists []. rewrite app_nil_r. auto.
  - split; [reflexivity|]. split; [|split; [reflexivity|]].
    + repeat split. exists [EvAttached n obj related]. auto.
    + apply elem_of_app. right. apply list_elem_of_singleton. reflexivity.
Qed.

(** One attachment: the draws return, and the outcome is that of the
    relation write. *)
Lemma attach_related_cases (model : Model) (field : M2MField)
  (related_objects : list Instance) (obj : Instance) (s : State) :
  related_objects <> [] ->
  exists related,
    (1 <= length related <= 5)%nat /\
    related ⊆+ related_objects /\
    (((attach_related env model field related_objects obj s).1 = Ok tt /\
      keeps (fun e => e = EvAttached (m2m_name field) obj related) s
        (attach_related env model field related_objects obj s).2 /\
      trace (attach_related env model field related_objects obj s).2
      = trace s ++ [EvAttached (m2m_name field) obj related] /\
      (obj, m2m_name field, related)
        ∈ db_links (attach_related env model field related_objects obj s).2)
     \/
     (exists e t,
        db_fault env t (OpSetRelation obj (m2m_name field) related) = Some e /\
        (attach_related env model field related_objects obj s).1 = Raise e /\
        keeps (fun _ => False) s
          (attach_related env model field related_objects obj s).2 /\
        trace (attach_related env model field related_objects obj s).2
        = trace s /\
        db_links (attach_related env model field related_objects obj s).2
        = db_links s)).
Proof.
  intros Hne.
  assert (Hlen : (1 <= length related_objects)%nat)
    by (destruct related_objects; [done|cbn; lia]).
  set (hi := Z.min 5 (Z.of_nat (length related_objects))).
  set (num := 1 + Z.of_nat (rand env (clock s)) mod (hi - 1 + 1)).
  assert (Hnum : 1 <= num <= hi).
  { unfold num. replace (hi - 1 + 1) with hi by lia.
    pose proof (Z.mod_pos_bound (Z.of_nat (rand env (clock s))) hi).
    unfold hi in *. lia. }
  destruct (draw_sample_spec (Z.to_nat num) related_objects
              (set_clock (S (clock s)) s))
    as (related & s1 & Hdraw & Hl & Hsub & Ht & Hlinks);
    [unfold hi in *; lia|].
  assert (Hk1 : keeps (fun _ : Event => False) s s1).
  { eapply keeps_trans; [apply (quiet_tick _ s)|].
    pose proof (quiet_draw_sample env (fun _ => False) (Z.to_nat num)
                  related_objects (set_clock (S (clock s)) s)) as Hq.
    rewrite Hdraw in Hq. exact Hq. }
  assert (Hrun : attach_related env model field related_objects obj s
                 = set_relation env obj (m2m_name field) related s1).
  { unfold attach_related, random_randint. fold hi.
    destruct (hi <? 1) eqn:E; [apply Z.ltb_lt in E; lia|].
    unfold bind at 1. unfold bind at 1, tick at 1. unfold ret at 1.
    fold num. unfold bind at 1, random_sample.
    destruct ((num <? 0) || (Z.of_nat (length related_objects) <? num)) eqn:E2.
    { apply orb_true_iff in E2 as [E2|E2]; apply Z.ltb_lt in E2;
        unfold hi in *; lia. }
    rewrite Hdraw. reflexivity. }
  exists related. split; [unfold hi in *; lia|]. split; [exact Hsub|].
  rewrite Hrun.
  pose proof (set_relation_cases obj (m2m_name field) related s1) as Hset.
  destruct (db_fault env (clock s1)
              (OpSetRelation obj (m2m_name field) related)) as [e|] eqn:Hf.
  - right. exists e, (clock s1).
    destruct Hset as (Hr & Hk & Ht' & Hl').
    split; [exact Hf|]. split; [exact Hr|].
    split; [eapply keeps_trans; [exact Hk1|exact Hk]|].
    split; [rewrite Ht', Ht|rewrite Hl', Hlinks]; reflexivity.
  - left. destruct Hset as (Hr & Hk & Ht' & Hl').
    split; [exact Hr|].
    split; [eapply keeps_trans;
              [eapply keeps_weaken; [|exact Hk1]; intros ? []|exact Hk]|].
    split; [rewrite Ht', Ht; reflexivity|exact Hl'].
Qed.

(** What the wiring of a model adds to the trace: attachments, to the
    instances of the model's ledger entry, of instances drawn from the
    ledger entry of the field's target; nothing else changes in the
    ledger, the stored rows and the allocator. *)
Lemma wiring_events (model : Model) (s : State) :
  keeps (wires model (created_objects s)) s
    (handle_many_to_many_relations env model s).2.
Proof.
  unfold handle_many_to_many_relations.
  apply (keeps_for_each _ (created_objects s)); [|reflexivity].
  intros field s1 Hfield Hs1. cbv beta.
  unfold bind at 1, gets at 1. rewrite Hs1.
  destruct (dict_get (created_objects s) (ref_name (m2m_remote field)))
    as [|r0 rest] eqn:E.
  { apply keeps_refl. }
  unfold bind at 1, gets at 1. rewrite Hs1.
  apply (keeps_for_each _ (created_objects s)); [|exact Hs1].
  intros obj s2 Hobj Hs2.
  destruct (attach_related_cases model field (r0 :: rest) obj s2)
    as (related & Hlen & Hsub & Hcase); [discriminate|].
  destruct Hcase as [(_ & Hk & _)|(e & t & _ & _ & Hk & _)].
  - eapply keeps_weaken; [|exact Hk]. intros ev ->.
    exists field, obj, related. rewrite E. auto.
  - eapply keeps_weaken; [|exact Hk]. intros ev [].
Qed.

End Wiring.

(** X14.  When, for each many-to-many field, the ledger has no
    instance of the target or none of the model itself, the wiring
    does nothing at all: it returns with the state unchanged. *)
Theorem wiring_skips_without_instances (env : Env) (model : Model)
  (s : State) :
  (forall field, field ∈ many_to_many model ->
     dict_get (created_objects s) (ref_name (m2m_remote field)) = [] \/
     dict_get (created_objects s) (qualified_name model) = []) ->
  handle_many_to_many_relations env model s = (Ok tt, s).
Proof.
  intros H. unfold handle_many_to_many_relations.
  apply wiring_loop_skips. exact H.
Qed.

Lemma wiring_skips_without_instances_witness :
  handle_many_to_many_relations (Sample.env []) Sample.deal_model Sample.start
  = (Ok tt, Sample.start).
Proof.
  apply (wiring_skips_without_instances (Sample.env []) Sample.deal_model
           Sample.start).
  intros field _. left. reflexivity.
Defined.

(** X15.  One attachment always returns from its two draws
    ([randint] and [sample] never raise there): a sample of between 1
    and 5 related instances is drawn from the target's ledger entry
    without repeating a position, and the outcome is that of the
    relation write.  Either it returns, the attachment is the one event
    added and the link is recorded; or the backend refused this write,
    the attachment raises what the backend raised, and neither links
    nor trace change. *)
Theorem attachment_is_small_sample (env : Env) (model : Model)
  (field : M2MField) (related_objects : list Instance) (obj : Instance)
  (s : State) :
  related_objects <> [] ->
  exists related,
    (1 <= length related <= 5)%nat /\
    related ⊆+ related_objects /\
    (((attach_related env model field related_objects obj s).1 = Ok tt /\
      trace (attach_related env model field related_objects obj s).2
      = trace s ++ [EvAttached (m2m_name field) obj related] /\
      (obj, m2m_name field, related)
        ∈ db_links (attach_related env model field related_objects obj s).2)
     \/
     (exists e t,
        db_fault env t (OpSetRelation obj (m2m_name field) related) = Some e /\
        (attach_related env model field related_objects obj s).1 = Raise e /\
        trace (attach_related env model field related_objects obj s).2
        = trace s /\
        db_links (attach_related env model field related_objects obj s).2
        = db_links s)).
Proof.
  intros Hne.
  destruct (attach_related_cases env model field related_objects obj s Hne)
    as (related & Hlen & Hsub & Hcase).
  exists related. split; [exact Hlen|]. split; [exact Hsub|].
  destruct Hcase as [(Hr & _ & Ht & Hl)|(e & t & Hf & Hr & _ & Ht & Hl)].
  - left. auto.
  - right. exists e, t. auto.
Qed.

Lemma attachment_is_small_sample_witness :
  [Cases.one_tag] <> [] /\
  exists related,
    (1 <= length related <= 5)%nat /\
    related ⊆+ [Cases.one_tag] /\
    (attach_related (Sample.env []) Sample.deal_model
       (mkM2M "tags" Sample.tag_ref) [Cases.one_tag] Cases.one_deal
       Sample.start).1 = Ok tt /\
    trace (attach_related (Sample.env []) Sample.deal_model
             (mkM2M "tags" Sample.tag_ref) [Cases.one_tag] Cases.one_deal
             Sample.start).2
    = trace Sample.start ++ [EvAttached "tags" Cases.one_deal related] /\
    (Cases.one_deal, "tags", related)
      ∈ db_links (attach_related (Sample.env []) Sample.deal_model
                    (mkM2M "tags" Sample.tag_ref) [Cases.one_tag]
                    Cases.one_deal Sample.start).2.
Proof.
  assert (Hne : [Cases.one_tag] <> []) by discriminate.
  split; [exact Hne|].
  destruct (attachment_is_small_sample (Sample.env []) Sample.deal_model
              (mkM2M "tags" Sample.tag_ref) [Cases.one_tag] Cases.one_deal
              Sample.start Hne) as (related & Hlen & Hsub & Hcase).
  exists related. split; [exact Hlen|]. split; [exact Hsub|].
  destruct Hcase as [Hok|(e & t & Hf & _)]; [exact Hok|discriminate Hf].
Defined.

(** On the sample backend the attachment returns and links the one
    available instance. *)
Example attachment_on_sample_backend :
  attach_related (Sample.env []) Sample.deal_model
    (mkM2M "tags" Sample.tag_ref) [Cases.one_tag] Cases.one_deal Sample.start
  = (Ok tt,
     set_trace [EvAttached "tags" Cases.one_deal [Cases.one_tag]]
       (set_db_links [(Cases.one_deal, "tags", [Cases.one_tag])]
          (set_clock 3 Sample.start))).
Proof. reflexivity. Qed.

(** X16.  The wiring creates and saves no instance and leaves the
    attributes of [self] alone.  All it adds to the trace are
    attachments: each is for a many-to-many field of the model, to an
    instance of the model's ledger entry, of between 1 and 5 instances
    of the ledger entry of the field's target. *)
Theorem wiring_leaves_instances_alone (env : Env) (model : Model)
  (s : State) :
  keeps (wires model (created_objects s))
    s (handle_many_to_many_relations env model s).2 /\
  same_self s (handle_many_to_many_relations env model s).2.
Proof.
  split; [apply wiring_events|apply steady_handle_many_to_many_relations].
Qed.

(** ** The order of generation and wiring *)

Lemma wires_wiring_event (model : Model) (s : State) (e : Event) :
  ledger_typed s -> wires model (created_objects s) e -> wiring_event model e.
Proof.
  intros Ht (field & o & related & -> & _ & Ho & _). cbn.
  unfold dict_get in Ho.
  destruct (created_objects s !! qualified_name model) as [objs|] eqn:E;
    [|inversion Ho].
  exact (Ht _ _ _ E Ho).
Qed.

Lemma generate_data_for_model_typed (env : Env) (model : Model) (s : State) :
  ledger_typed s -> ledger_typed (generate_data_for_model env model s).2.
Proof.
  intros Ht. destruct (abstract model) eqn:Habs.
  - rewrite generate_data_for_model_abstract by exact Habs. exact Ht.
  - destruct (generate_data_for_model_effect env model s Habs)
      as (created & evs & Hc & _ & _ & _ & _ & _ & _ & Hall & _).
    intros k objs o. rewrite Hc.
    destruct (decide (qualified_name model = k)) as [<-|Hne].
    + rewrite lookup_insert_eq. intros [= <-] Ho.
      rewrite Forall_forall in Hall. auto.
    + rewrite lookup_insert_ne by exact Hne. apply Ht.
Qed.

(** One turn of the loop: the generation of the model, then its
    wiring. *)
Lemma process_turn_phases (env : Env) (model : Model) (s : State) :
  ledger_typed s ->
  exists s1 gen wire,
    try_except
      (generate_data_for_model env model;;;
       handle_many_to_many_relations env model)
      (fun e => stdout_write ("Error processing " +:+ label model
                              +:+ ": " +:+ str_exn e)) s = (Ok tt, s1) /\
    trace s1 = trace s ++ gen ++ wire /\
    Forall (generation_event model) gen /\
    Forall (wiring_event model) wire /\
    ledger_typed s1.
Proof.
  intros Hty.
  pose proof (generate_data_for_model_typed env model s Hty) as Hty1.
  destruct (generate_data_for_model_spec env model s)
    as (s1 & Hgen & (gen & Ht1 & Hev1) & _).
  rewrite Hgen in Hty1. cbn [snd] in Hty1.
  pose proof (wiring_events env model s1) as Hwire.
  unfold try_except, bind at 1. rewrite Hgen.
  destruct (handle_many_to_many_relations env model s1) as [[[]|e] s2];
    cbn [fst snd] in Hwire;
    pose proof Hwire as (Hc & _ & _ & wire & Ht2 & Hev2).
  - exists s2, gen, wire. split; [reflexivity|].
    split; [rewrite Ht2, Ht1, app_assoc; reflexivity|].
    split; [exact Hev1|]. split.
    + eapply Forall_impl; [exact Hev2|].
      intros ev. apply wires_wiring_event. exact Hty1.
    + unfold ledger_typed. cbn. rewrite Hc. exact Hty1.
  - unfold stdout_write, emit, modify. cbn.
    eexists _, gen, (wire ++ [_]). split; [reflexivity|]. cbn.
    split; [rewrite Ht2, Ht1, <- !app_assoc; reflexivity|].
    split; [exact Hev1|]. split.
    + apply Forall_app. split; [|repeat constructor].
      eapply Forall_impl; [exact Hev2|].
      intros ev. apply wires_wiring_event. exact Hty1.
    + unfold ledger_typed. cbn. rewrite Hc. exact Hty1.
Qed.

Lemma process_models_phased (env : Env) (models : list Model) (s : State) :
  ledger_typed s ->
  exists s',
    process_models env models s = (Ok tt, s') /\
    exists evs, trace s' = trace s ++ evs /\ phased models evs.
Proof.
  unfold process_models. revert s.
  induction models as [|model models IH]; intros s Hty; cbn [for_each].
  { exists s. split; [reflexivity|].
    exists []. rewrite app_nil_r. split; [reflexivity|constructor]. }
  destruct (process_turn_phases env model s Hty)
    as (s1 & gen & wire & Hrun & Ht & Hg & Hw & Hty1).
  unfold bind at 1. rewrite Hrun.
  destruct (IH s1 Hty1) as (s' & Hrest & evs & Ht' & Hph).
  exists s'. split; [exact Hrest|].
  exists (gen ++ wire ++ evs).
  split; [rewrite Ht', Ht, <- !app_assoc; reflexivity|].
  constructor; assumption.
Qed.

(** C3, as stated, fails: over the sequence [tag; article; note], on a
    backend that enforces NOT NULL and accepts every instance of the
    three models, the first attachment to an instance of [article]
    (event 202) comes before the first instance of [note] is saved
    (event 303). *)
Lemma wiring_before_later_generation :
  ~ wiring_after_all_generation
      (trace (process_models (Cases.strict_env Cases.wired_models)
                Cases.wired_models Sample.start).2).
Proof.
  intros H.
  assert (Hlt : (303 < 202)%nat); [|lia].
  apply (H 202%nat 303%nat "crm.article" "crm.note");
    [vm_compute; reflexivity..|discriminate].
Qed.

(** In that run every save is accepted: the store holds the 300
    instances and the ledger 100 of each model; the instances have a
    value in every column but the key, text within the declared
    length. *)
Example strict_run_saves_all :
  let s := (process_models (Cases.strict_env Cases.wired_models)
              Cases.wired_models Sample.start).2 in
  length (db_rows s) = 300%nat /\
  failed_saves (trace s) = 0%nat /\
  length <$> (created_objects s !! "crm.tag") = Some 100%nat /\
  length <$> (created_objects s !! "crm.article") = Some 100%nat /\
  length <$> (created_objects s !! "crm.note") = Some 100%nat /\
  length (db_links s) = 100%nat /\
  db_rows s !! 0%nat
  = Some (mkInstance "crm.tag" 1
            [("id", VNone); ("name", VStr "Elizabeth Hernandez")]) /\
  db_rows s !! 100%nat
  = Some (mkInstance "crm.article" 101
            [("id", VNone);
             ("title", VStr "Lorem ipsum dolor sit amet consectetur.");
             ("tag", VObj "crm.tag" 11)]) /\
  db_rows s !! 200%nat
  = Some (mkInstance "crm.note" 201
            [("id", VNone);
             ("body", VStr "Lorem ipsum dolor sit amet consectetur.")]).
Proof. vm_compute. repeat split. Qed.

(** C3, amended.  The wiring of a model follows the generation of that
    model and precedes the generation of the next one.  In a run whose
    ledger holds, for each model, instances of that model (it starts
    empty), the loop over the processed sequence returns and its events
    come in phases, model by model: first the events of the generation
    of the model, among them the saves, all of instances of this
    model; then the attachments, all to instances of this model.  So an
    attachment comes after the instance generation of its own model and
    of every earlier model has finished, and before that of any later
    model starts. *)
Theorem wiring_follows_own_generation (env : Env) (models : list Model)
  (s : State) :
  ledger_typed s ->
  (process_models env models s).1 = Ok tt /\
  exists evs,
    trace (process_models env models s).2 = trace s ++ evs /\
    phased models evs.
Proof.
  intros Hty.
  destruct (process_models_phased env models s Hty) as (s' & -> & Hev).
  split; [reflexivity|exact Hev].
Qed.

Lemma wiring_follows_own_generation_witness :
  ledger_typed Sample.start /\
  (process_models (Cases.strict_env Cases.wired_models) Cases.wired_models
     Sample.start).1 = Ok tt /\
  exists evs,
    trace (process_models (Cases.strict_env Cases.wired_models)
             Cases.wired_models Sample.start).2
    = trace Sample.start ++ evs /\
    phased Cases.wired_models evs.
Proof.
  assert (Hty : ledger_typed Sample.start).
  { intros k objs o Hk. cbn in Hk. rewrite lookup_empty in Hk.
    discriminate Hk. }
  split; [exact Hty|].
  apply (wiring_follows_own_generation (Cases.strict_env Cases.wired_models)
           Cases.wired_models Sample.start Hty).
Defined.

(** ** Discovery *)

Lemma filter_models_list (all_models : list Model)
  (items : list string) (s : State) :
  filter_models all_models (OList items) s
  = (Ok (filter (fun m => (qualified_name m ∉ items) /\ app_label m <> "auth")
           all_models), s).
Proof.
  induction all_models as [|m ms IH]; [reflexivity|].
  cbn [filter_models not_in]. unfold bind at 1, ret at 1.
  unfold bind at 1. rewrite IH. unfold ret.
  rewrite filter_cons.
  destruct (PyStr.mem (qualified_name m) items) eqn:Hex; cbn [negb andb].
  - apply mem_spec in Hex.
    destruct (decide _) as [[Hn _]|_]; [contradiction|reflexivity].
  - assert (Hn : qualified_name m ∉ items).
    { intros Hin. apply mem_spec in Hin. congruence. }
    destruct (String.eqb_spec (app_label m) "auth") as [Ha|Ha]; cbn [negb].
    + destruct (decide _) as [[_ Hna]|_]; [contradiction|reflexivity].
    + destruct (decide _) as [_|Hno]; [reflexivity|].
      exfalso. apply Hno. auto.
Qed.

(** X17.  With an exclusion list, discovery raises nothing and keeps,
    in registry order, exactly the models that are not in the list and
    not of the [auth] application. *)
Theorem discovery_with_exclusion_list (all_models : list Model)
  (items : list string) (s : State) :
  filter_models all_models (OList items) s
  = (Ok (filter (fun m => (qualified_name m ∉ items) /\ app_label m <> "auth")
           all_models), s).
Proof. apply filter_models_list. Qed.

(** ** Bootstrap on a backend without faults *)

Section FaultFree.

Variable env : Env.
Hypothesis no_fault : forall t op, db_fault env t op = None.

Lemma group_get_or_create_returns (g : string) (s : State) :
  (group_get_or_create env g s).1 = Ok tt.
Proof.
  unfold group_get_or_create, db_issue. unfold_cmd. cbn.
  rewrite no_fault. cbn. destruct (PyStr.mem g (db_groups s)); reflexivity.
Qed.

Lemma ensure_groups_returns (gs : list string) (s : State) :
  (for_each gs (group_get_or_create env) s).1 = Ok tt.
Proof.
  revert s. induction gs as [|g gs IH]; intros s; [reflexivity|].
  cbn [for_each]. unfold bind.
  pose proof (group_get_or_create_returns g s) as Hg.
  destruct (group_get_or_create env g s) as [[[]|e] s1]; [apply IH|].
  discriminate.
Qed.

Lemma ensure_superuser_returns (s : State) :
  has_superuser s \/ "admin" ∉ map username (db_users s) ->
  ((found <~ superuser_exists env ;;
    if negb found
    then create_superuser env "admin" "admin@example.com"
    else ret tt) s).1 = Ok tt.
Proof.
  intros Hadmin.
  unfold superuser_exists, create_superuser, db_issue, has_superuser in *.
  unfold_cmd. cbn. rewrite no_fault. cbn.
  destruct (existsb is_superuser (db_users s)) eqn:Hsu; [reflexivity|].
  cbn. rewrite no_fault. cbn.
  destruct (PyStr.mem "admin" (map username (db_users s))) eqn:E;
    [|reflexivity].
  apply mem_spec in E. destruct Hadmin as [H|H]; [discriminate|contradiction].
Qed.

Lemma create_base_auth_models_quiet (s : State) :
  has_superuser s \/ "admin" ∉ map username (db_users s) ->
  trace (create_base_auth_models env s).2 = trace s.
Proof.
  intros Hadmin. unfold create_base_auth_models, try_except, bind at 1.
  pose proof (ensure_groups_returns base_groups s) as Hg.
  destruct (ensure_groups env base_groups s) as (U1 & T1 & _); [auto|].
  destruct (for_each base_groups (group_get_or_create env) s)
    as [[[]|e] s1]; [|discriminate]. cbn [fst snd] in *.
  pose proof (ensure_superuser_returns s1) as Hu.
  destruct (ensure_superuser env s1) as (_ & T2 & _). cbv zeta in T2.
  destruct ((found <~ superuser_exists env ;;
             if negb found
             then create_superuser env "admin" "admin@example.com"
             else ret tt) s1) as [[[]|e] s2]; cbn [fst snd] in *.
  - congruence.
  - unfold has_superuser in *. rewrite U1 in Hu.
    specialize (Hu Hadmin). discriminate.
Qed.

End FaultFree.

(** X18.  On a backend without faults, when an administrative account
    exists or the name [admin] is free, bootstrap logs nothing and
    leaves the three groups and an administrative account in the
    store. *)
Theorem bootstrap_ensures_groups_and_admin (env : Env) (s : State) :
  (forall t op, db_fault env t op = None) ->
  has_superuser s \/ "admin" ∉ map username (db_users s) ->
  trace (create_base_auth_models env s).2 = trace s /\
  (forall g, g ∈ base_groups ->
             g ∈ db_groups (create_base_auth_models env s).2) /\
  has_superuser (create_base_auth_models env s).2.
Proof.
  intros Hfault Hadmin.
  pose proof (create_base_auth_models_quiet env Hfault s Hadmin) as Hquiet.
  split; [exact Hquiet|].
  apply (create_base_auth_models_run env s). exact Hquiet.
Qed.

Lemma bootstrap_ensures_groups_and_admin_witness :
  (forall t op, db_fault (Sample.env []) t op = None) /\
  (has_superuser Sample.start \/
   "admin" ∉ map username (db_users Sample.start)) /\
  has_superuser (create_base_auth_models (Sample.env []) Sample.start).2.
Proof.
  assert (H1 : forall t op, db_fault (Sample.env []) t op = None)
    by reflexivity.
  assert (H2 : has_superuser Sample.start \/
               "admin" ∉ map username (db_users Sample.start)).
  { right. cbn. intros H. inversion H. }
  split; [exact H1|]. split; [exact H2|].
  apply (bootstrap_ensures_groups_and_admin (Sample.env []) Sample.start H1 H2).
Defined.

